(** * Tiered DuckDuckGo search wrapper (custom_ddg_production.py)

    A shallow embedding of the fallback dispatcher [_search_text] and of
    the helpers it calls ([_with_ddgs], [_new_driver], [_browser_search],
    [_requests_scrape]).  The process environment [os.environ], the
    sequence of calls into the outside world and the log are explicit
    state; the outside world itself (primp, Selenium, ddgs, requests,
    BeautifulSoup, urllib) is a record of oracles. *)

From Stdlib Require Import Floats.
From stdpp Require Import gmap strings list pretty.

Open Scope string_scope.
Open Scope Z_scope.

(* Decimal float literals denote the nearest binary64 value, as in Python. *)
#[local] Set Warnings "-inexact-float".

(** ** Python data *)

(** Values stored in the result dictionaries. *)
Inductive PyVal :=
| VInt (z : Z)
| VStr (s : string).

(** A result entry is a Python dict with string keys. *)
Abbreviation Dict := (gmap string PyVal).

(** The exception classes that occur in the module, with the part of the
    class hierarchy the [except] clauses depend on. *)
Inductive ExcClass :=
| BaseException
| KeyboardInterrupt
| PyException
| KeyError
| TypeError
| HTTPError
| DDGSException
| RatelimitException
| WebDriverException
| TimeoutException.

Definition parent (c : ExcClass) : option ExcClass :=
  match c with
  | BaseException => None
  | KeyboardInterrupt => Some BaseException
  | PyException => Some BaseException
  | KeyError => Some PyException
  | TypeError => Some PyException
  | HTTPError => Some PyException
  | DDGSException => Some PyException
  | RatelimitException => Some DDGSException
  | WebDriverException => Some PyException
  | TimeoutException => Some WebDriverException
  end.

Definition ExcClass_eqb (a b : ExcClass) : bool :=
  match a, b with
  | BaseException, BaseException
  | KeyboardInterrupt, KeyboardInterrupt
  | PyException, PyException
  | KeyError, KeyError
  | TypeError, TypeError
  | HTTPError, HTTPError
  | DDGSException, DDGSException
  | RatelimitException, RatelimitException
  | WebDriverException, WebDriverException
  | TimeoutException, TimeoutException => true
  | _, _ => false
  end.

Fixpoint issubclass_fuel (fuel : nat) (c k : ExcClass) : bool :=
  ExcClass_eqb c k ||
  match fuel with
  | O => false
  | S f => match parent c with
           | Some p => issubclass_fuel f p k
           | None => false
           end
  end.

(** The hierarchy above has depth 3. *)
Definition issubclass (c k : ExcClass) : bool := issubclass_fuel 3 c k.

(** A raised exception: its class and its message. *)
Record PyExc := mkExc { exc_class : ExcClass; exc_msg : string }.

Definition isinstance (e : PyExc) (k : ExcClass) : bool :=
  issubclass (exc_class e) k.

(** Truthiness of [str | None]: [None] and the empty string are falsy. *)
Definition truthy_str (o : option string) : bool :=
  match o with
  | Some s => negb (String.eqb s "")
  | None => false
  end.

(** [a or b] on [str | None]. *)
Definition py_or (a b : option string) : option string :=
  if truthy_str a then a else b.

(** [l[:k]] for a Python int [k]: a negative bound counts from the end. *)
Definition slice_to {A} (l : list A) (k : Z) : list A :=
  if 0 <=? k then take (Z.to_nat k) l
  else take (Z.to_nat (Z.of_nat (length l) + k)) l.

(** [enumerate(l, start)]. *)
Fixpoint enumerate {A} (start : Z) (l : list A) : list (Z * A) :=
  match l with
  | [] => []
  | x :: r => (start, x) :: enumerate (start + 1) r
  end.

(** ASCII part of [str.lower]. *)
Definition lower_ascii (c : Ascii.ascii) : Ascii.ascii :=
  let n := Ascii.nat_of_ascii c in
  if (65 <=? n)%nat && (n <=? 90)%nat then Ascii.ascii_of_nat (n + 32) else c.

Fixpoint lower (s : string) : string :=
  match s with
  | EmptyString => EmptyString
  | String c r => String (lower_ascii c) (lower r)
  end.

(** ** Module constants *)

Definition INTERNAL_MAX_RETURN : Z := 10.

Definition _DEFAULT_UA : string :=
  "Mozilla/5.0 (Windows NT 10.0; Win64; x64) " ++
  "AppleWebKit/537.36 (KHTML, like Gecko) " ++
  "Chrome/125.0 Safari/537.36".

(** ** The world: environment, calls made, log *)

Inductive Tier := TierPrimp | TierBrowser | TierDdgs | TierScrape.

(** Calls that leave the process, in the order they are made. *)
Inductive Event :=
| EvPrimpClient (impersonate impersonate_os : string) (proxy : option string)
| EvPrimpHeaders
| EvPrimpGet (params : list (string * string))
| EvPrimpClose
| EvDriverNew (args : list string)
| EvCdp (cmd : string)
| EvDriverGet (url : string)
| EvDriverWait (timeout : Z)
| EvDriverQuit
| EvDdgsOpen (proxy : option string)
| EvDdgsText (query : string) (max_results : Z)
| EvSleep (d : float)
| EvPost (url : string) (data : string).

Definition tier_of (e : Event) : option Tier :=
  match e with
  | EvPrimpClient _ _ _ | EvPrimpHeaders | EvPrimpGet _ | EvPrimpClose => Some TierPrimp
  | EvDriverNew _ | EvCdp _ | EvDriverGet _ | EvDriverWait _ | EvDriverQuit => Some TierBrowser
  | EvDdgsOpen _ | EvDdgsText _ _ => Some TierDdgs
  | EvPost _ _ => Some TierScrape
  | EvSleep _ => None
  end.

(** [logger.debug], [logger.warning] and [print]; a record keeps the
    message text without its formatted arguments. *)
Inductive LogLevel := Debug | Warning | Stdout.

Record World := mkWorld {
  environ : gmap string string;
  trace : list Event;
  logs : list (LogLevel * string)
}.

(** ** Computations that may raise *)

Inductive Res (A : Type) :=
| Ok (a : A)
| Raise (e : PyExc).
Arguments Ok {A} a.
Arguments Raise {A} e.

Definition M (A : Type) : Type := World -> Res A * World.

Definition ret {A} (a : A) : M A := fun w => (Ok a, w).
Definition raise {A} (e : PyExc) : M A := fun w => (Raise e, w).

Definition bind {A B} (m : M A) (k : A -> M B) : M B :=
  fun w => match m w with
           | (Ok a, w') => k a w'
           | (Raise e, w') => (Raise e, w')
           end.

Declare Scope py_scope.
Delimit Scope py_scope with py.
Notation "x <- m ;; k" := (bind m (fun x => k))
  (at level 100, m at next level, right associativity) : py_scope.
Notation "m ;;; k" := (bind m (fun _ => k))
  (at level 100, right associativity) : py_scope.
Open Scope py_scope.

(** [try: m except k as e: h e]: only instances of [k] are handled. *)
Definition try_except {A} (m : M A) (k : ExcClass) (h : PyExc -> M A) : M A :=
  fun w => match m w with
           | (Ok a, w') => (Ok a, w')
           | (Raise e, w') => if isinstance e k then h e w' else (Raise e, w')
           end.

(** [try: m finally: f]: [f] always runs; when [f] raises, its exception
    replaces the outcome of [m]. *)
Definition try_finally {A} (m : M A) (f : M unit) : M A :=
  fun w => match m w with
           | (r, w') => match f w' with
                        | (Ok _, w'') => (r, w'')
                        | (Raise e, w'') => (Raise e, w'')
                        end
           end.

(** [with contextlib.suppress(Exception): m]. *)
Definition suppress (m : M unit) : M unit :=
  try_except m PyException (fun _ => ret tt).

Definition emit (e : Event) : M unit :=
  fun w => (Ok tt, mkWorld (environ w) (trace w ++ [e]) (logs w)).

Definition log (l : LogLevel) (s : string) : M unit :=
  fun w => (Ok tt, mkWorld (environ w) (trace w) (logs w ++ [(l, s)])).

Definition get_world : M World := fun w => (Ok w, w).

Definition set_environ (env : gmap string string) : M unit :=
  fun w => (Ok tt, mkWorld env (trace w) (logs w)).

(** [os.getenv(k)] and [os.getenv(k, d)]. *)
Definition getenv (k : string) : M (option string) :=
  fun w => (Ok (environ w !! k), w).

Definition getenv_default (k d : string) : M string :=
  fun w => (Ok (default d (environ w !! k)), w).

(** [os.environ.setdefault(k, v)]. *)
Definition environ_setdefault (k v : string) : M unit :=
  fun w => match environ w !! k with
           | Some _ => (Ok tt, w)
           | None => (Ok tt, mkWorld (<[k:=v]> (environ w)) (trace w) (logs w))
           end.

(** An oracle call: the event is recorded, then the outside world
    answers; the answer may depend on everything that happened so far. *)
Definition call {A} (e : Event) (oracle : World -> Res A) : M A :=
  emit e ;;; (fun w => (oracle w, w)).

(** Outcome of a block that either executes a [return] or runs off its
    end, so that the statements after it are reached. *)
Inductive Flow (A : Type) :=
| Returned (a : A)
| Fallthrough.
Arguments Returned {A} a.
Arguments Fallthrough {A}.

Fixpoint mapM {A B} (f : A -> M B) (l : list A) : M (list B) :=
  match l with
  | [] => ret []
  | x :: r => y <- f x ;; ys <- mapM f r ;; ret (y :: ys)
  end.

(** ** Markup, responses and the wrapper object *)

(** A tag selected by BeautifulSoup: its attributes and its stripped text. *)
Record Element := mkElement {
  el_attrs : gmap string string;
  el_text : string
}.

(** [a[key]] raises KeyError on a missing attribute; [a.get(key, d)] does not. *)
Definition getitem (a : Element) (key : string) : M string :=
  match el_attrs a !! key with
  | Some v => ret v
  | None => raise (mkExc KeyError key)
  end.

Definition get_attr (a : Element) (key d : string) : string :=
  default d (el_attrs a !! key).

Record Response := mkResponse {
  status_code : Z;
  text : string
}.

(** The fields of [PatchedDuckDuckGoSearchAPIWrapper]. *)
Record Wrapper := mkWrapper {
  self_k : Z;
  self_max_results : Z;
  self_region : option string;
  self_safesearch : option string;
  self_time : option string;
  self_proxy : option string;
  self_headers : option (gmap string string);
  self_use_browser : bool;
  self_headless : bool;
  self_bypass_proxy_for_driver : bool
}.

(** Truthiness of [Dict[str, str] | None]. *)
Definition truthy_dict (h : option (gmap string string)) : bool :=
  match h with
  | Some d => negb (bool_decide (d = ∅))
  | None => false
  end.

(** [dict(headers or {})] followed by [setdefault("User-Agent", _DEFAULT_UA)]. *)
Definition with_default_ua (h : option (gmap string string)) : gmap string string :=
  let d := default ∅ h in
  match d !! "User-Agent" with
  | Some _ => d
  | None => <["User-Agent" := _DEFAULT_UA]> d
  end.

(** The libraries the module calls.  Each answer may depend on the
    environment and on the calls made so far. *)
Record Externals := mkExternals {
  (* urllib.parse *)
  quote : string -> string;
  urlencode : list (string * string) -> string;
  (* unquote(parse_qs(urlparse(raw).query).get("uddg", [raw])[0]) *)
  uddg_of : string -> string;
  (* BeautifulSoup(markup, "html.parser").select(selector) *)
  soup_select : string -> string -> list Element;
  (* primp *)
  primp_Client : World -> Res unit;
  primp_headers_update : World -> Res unit;
  primp_get : World -> Res Response;
  primp_close : World -> Res unit;
  (* selenium *)
  webdriver_Chrome : World -> Res unit;
  execute_cdp_cmd : World -> Res unit;
  driver_get : World -> Res unit;
  wait_until : World -> Res unit;
  page_source : World -> string;
  driver_quit : World -> Res unit;
  random_uniform : World -> float;
  (* ddgs *)
  ddgs_open : World -> Res unit;
  ddgs_text : World -> string -> Z -> option string -> option string ->
              option string -> Res (list Dict);
  (* requests *)
  requests_post : World -> Res Response;
  raise_for_status : Response -> Res unit
}.

(** One result dictionary. *)
Definition result_dict (i : Z) (title href body : string) : Dict :=
  {[ "id" := VInt i; "title" := VStr title; "href" := VStr href;
     "body" := VStr body ]}.

(** ** The module's functions *)

Section Tiers.

Variable X : Externals.

(** *** Helper tier 2: the ddgs client, with retry *)

(** [with ddgs(proxy=proxy, timeout=20) as client: return fn(client)];
    leaving the [with] block has no effect of its own. *)
Definition ddgs_session {A} (proxy : option string) (fn : M A) : M A :=
  call (EvDdgsOpen proxy) (ddgs_open X) ;;; fn.

(** The body of [for attempt in range(1, retries + 1)], iterated: [todo]
    counts the iterations left. *)
Fixpoint ddgs_attempts {A} (proxy : option string) (fn : M A)
    (retries : Z) (backoff : float)
    (todo : nat) (attempt : Z) (sleep : float) : M (option A) :=
  match todo with
  | O => ret None
  | S todo' =>
      r <- try_except
             (a <- ddgs_session proxy fn ;; ret (Returned a))
             DDGSException
             (fun exc =>
                log Warning "ddgs raised (try)" ;;;
                if attempt =? retries then raise exc
                else emit (EvSleep sleep) ;;; ret Fallthrough) ;;
      match r with
      | Returned a => ret (Some a)
      | Fallthrough =>
          ddgs_attempts proxy fn retries backoff todo' (attempt + 1)
            (PrimFloat.mul sleep backoff)
      end
  end.

(** The [if proxy:] block: both variables are set unless present. *)
Definition export_proxy (proxy : option string) : M unit :=
  if truthy_str proxy then
    environ_setdefault "HTTP_PROXY" (default "" proxy) ;;;
    environ_setdefault "HTTPS_PROXY" (default "" proxy)
  else ret tt.

Definition _with_ddgs {A} (proxy : option string)
    (headers : option (gmap string string)) (fn : M A)
    (retries : Z) (backoff : float) : M (option A) :=
  e1 <- getenv "HTTP_PROXY" ;;
  e2 <- getenv "HTTPS_PROXY" ;;
  let proxy := py_or (py_or proxy e1) e2 in
  let headers := with_default_ua headers in
  export_proxy proxy ;;;
  ddgs_attempts proxy fn retries backoff (Z.to_nat retries) 1 0.01%float.

(** The keyword defaults [retries=3, backoff=1.5]. *)
Definition default_retries : Z := 3.
Definition default_backoff : float := 1.5%float.

(** *** Helper tier 1: real browser *)

(** One step of [for var in ("HTTP_PROXY", "HTTPS_PROXY")]: the variable
    moves from [os.environ] to [saved_env] when it is set. *)
Definition pop_var (st : gmap string string * gmap string string)
    (var : string) : gmap string string * gmap string string :=
  let '(saved_env, env) := st in
  match env !! var with
  | Some v => (<[var := v]> saved_env, delete var env)
  | None => (saved_env, env)
  end.

(** The arguments added to [opts]; [headless] is not consulted. *)
Definition driver_options (proxy : option string) (headless : bool) : list string :=
  (["--headless"; "--disable-gpu"; "--disable-dev-shm-usage"; "--no-sandbox"]
   ++ (if truthy_str proxy then ["--proxy-server=" ++ default "" proxy]%string
       else []))%list.

(** "Temporarily clear proxies": the loop that fills [saved_env]. *)
Definition clear_proxy_env (bypass_proxy_for_driver : bool)
    : M (gmap string string) :=
  fun w =>
    let st := if bypass_proxy_for_driver
              then foldl pop_var (∅, environ w) ["HTTP_PROXY"; "HTTPS_PROXY"]
              else (∅, environ w) in
    (Ok st.1, mkWorld st.2 (trace w) (logs w)).

(** [os.environ.update(saved_env)]. *)
Definition environ_update (saved_env : gmap string string) : M unit :=
  fun w => (Ok tt, mkWorld (saved_env ∪ environ w) (trace w) (logs w)).

(** The [if headers:] block. *)
Definition inject_headers (headers : option (gmap string string)) : M unit :=
  if truthy_dict headers then
    try_except
      (call (EvCdp "Network.enable") (execute_cdp_cmd X) ;;;
       call (EvCdp "Network.setExtraHTTPHeaders") (execute_cdp_cmd X))
      PyException
      (fun e => log Debug "CDP header injection failed")
  else ret tt.

Definition _new_driver (proxy : option string)
    (headers : option (gmap string string))
    (headless bypass_proxy_for_driver : bool) : M unit :=
  let opts := driver_options proxy headless in
  saved_env <- clear_proxy_env bypass_proxy_for_driver ;;
  try_finally
    (call (EvDriverNew opts) (webdriver_Chrome X))
    (environ_update saved_env) ;;;
  inject_headers headers.

Definition browser_body (i : Z) (snippet real_url : string) : string :=
  "__START_OF_SOURCE " ++ pretty (i + 1) ++ "__ <CONTENT> " ++ snippet ++
  " </CONTENT> <URL> " ++ real_url ++ " </URL> __END_OF_SOURCE  " ++
  pretty (i + 1) ++ "__".

(** The body of [for idx, link in enumerate(result_links)]. *)
Definition browser_entry (result_snippets : list Element)
    (item : Z * Element) : M Dict :=
  let '(idx, link) := item in
  raw_href <- getitem link "href" ;;
  let real_url := uddg_of X raw_href in
  let snippet :=
    if idx <? Z.of_nat (length result_snippets)
    then from_option el_text "" (result_snippets !! Z.to_nat idx)
    else "" in
  ret (result_dict (idx + 1) (el_text link) raw_href
         (browser_body idx snippet real_url)).

Definition _browser_search (query : string) (max_results : Z)
    (proxy : option string) (headers : option (gmap string string))
    (headless bypass_proxy_for_driver : bool) (timeout : Z) : M (list Dict) :=
  log Stdout "In _browser_search" ;;;
  let max_results := INTERNAL_MAX_RETURN in
  _new_driver proxy headers headless bypass_proxy_for_driver ;;;
  try_finally
    (call (EvDriverGet ("https://duckduckgo.com/html/?q=" ++ quote X query))
       (driver_get X) ;;;
     call (EvDriverWait timeout) (wait_until X) ;;;
     w <- get_world ;;
     let soup := page_source X w in
     let result_links := slice_to (soup_select X soup "a.result__a") max_results in
     let result_snippets :=
       slice_to (soup_select X soup "a.result__snippet") max_results in
     mapM (browser_entry result_snippets) (enumerate 0 result_links))
    (w <- get_world ;;
     emit (EvSleep (random_uniform X w)) ;;;
     suppress (call EvDriverQuit (driver_quit X))).

(** *** Helper tier 3: Requests and BeautifulSoup *)

(** The body of [for i, a in enumerate(..., 1)]. *)
Definition scrape_entry (item : Z * Element) : M Dict :=
  let '(i, a) := item in
  href <- getitem a "href" ;;
  ret (result_dict i (el_text a) href "").

Definition _requests_scrape (query : string) (max_results : Z)
    (proxy : option string) (headers : option (gmap string string))
    (timeout : Z) : M (list Dict) :=
  let url := "https://html.duckduckgo.com/html" in
  let headers := with_default_ua headers in
  resp <- call (EvPost url (urlencode X [("q", query)])) (requests_post X) ;;
  (fun w => (raise_for_status X resp, w)) ;;;
  mapM scrape_entry
    (enumerate 1 (slice_to (soup_select X (text resp) "a.result__a") max_results)).

(** *** The dispatcher *)

(** [{"off": "-1", "moderate": "0", "safe": "1", "strict": "1"}.get(_ss, "0")]. *)
Definition kp_of (ss : string) : string :=
  if String.eqb ss "off" then "-1"
  else if String.eqb ss "moderate" then "0"
  else if String.eqb ss "safe" then "1"
  else if String.eqb ss "strict" then "1"
  else "0".

Definition primp_params (self : Wrapper) (query : string) : list (string * string) :=
  ([("q", query)]
   ++ (if truthy_str (self_safesearch self)
       then [("kp", kp_of (lower (default "" (self_safesearch self))))] else [])
   ++ (if truthy_str (self_time self)
       then [("df", default "" (self_time self))] else [])
   ++ (if truthy_str (self_region self)
       then [("kl", default "" (self_region self))] else []))%list.

Definition primp_body (i : Z) (snip real : string) : string :=
  "__START_OF_SOURCE " ++ pretty i ++ "__ <CONTENT> " ++ snip ++
  " </CONTENT> <URL> " ++ real ++ " </URL> __END_OF_SOURCE " ++
  pretty i ++ "__".

(** [int(max_results or INTERNAL_MAX_RETURN)]. *)
Definition primp_limit (max_results : Z) : Z :=
  if max_results =? 0 then INTERNAL_MAX_RETURN else max_results.

(** The entries built from the markup of a 2xx answer. *)
Definition primp_out (markup : string) (max_results : Z) : list Dict :=
  let _links := soup_select X markup "a.result__a" in
  let _snips := soup_select X markup "div.result__snippet, a.result__snippet" in
  let _limit := primp_limit max_results in
  map (fun '(i, a) =>
         let _raw := get_attr a "href" "" in
         let _real := uddg_of X _raw in
         let _snip :=
           if i - 1 <? Z.of_nat (length _snips)
           then from_option el_text "" (_snips !! Z.to_nat (i - 1))
           else "" in
         result_dict i (el_text a) _raw (primp_body i _snip _real))
      (enumerate 1 (slice_to _links _limit)).

(** The statements inside the outer [try] of tier 0. *)
Definition primp_block (self : Wrapper) (query : string) (max_results : Z)
    : M (Flow (list Dict)) :=
  let _params := primp_params self query in
  _imp <- getenv_default "PRIMP_IMPERSONATE" "chrome_131" ;;
  _imp_os <- getenv_default "PRIMP_IMPERSONATE_OS" "windows" ;;
  call (EvPrimpClient _imp _imp_os (self_proxy self)) (primp_Client X) ;;;
  try_finally
    ((if truthy_dict (self_headers self)
      then suppress (call EvPrimpHeaders (primp_headers_update X))
      else ret tt) ;;;
     _resp <- call (EvPrimpGet _params) (primp_get X) ;;
     if (200 <=? status_code _resp) && (status_code _resp <? 300)
        && negb (String.eqb (text _resp) "")
     then
       let _out := primp_out (text _resp) max_results in
       match _out with
       | [] => ret Fallthrough
       | _ => ret (Returned _out)
       end
     else ret Fallthrough)
    (suppress (call EvPrimpClose (primp_close X))).

(** Tier 0 with its [except Exception] clause. *)
Definition primp_tier (self : Wrapper) (query : string) (max_results : Z)
    : M (Flow (list Dict)) :=
  try_except (primp_block self query max_results) PyException
    (fun _primp_exc => log Debug "PRIMP tier failed" ;;; ret Fallthrough).

(** Tier 1, entered only under [if self.use_browser]. *)
Definition browser_tier (self : Wrapper) (query : string) (max_results : Z)
    : M (Flow (list Dict)) :=
  if self_use_browser self then
    try_except
      (r <- _browser_search query max_results (self_proxy self)
              (self_headers self) (self_headless self)
              (self_bypass_proxy_for_driver self) 15 ;;
       ret (Returned r))
      WebDriverException
      (fun exc =>
         log Stdout "Browser tier WebDriverException caught:" ;;;
         log Stdout "Exception:" ;;;
         log Stdout "traceback" ;;;
         log Warning "Browser tier failed; falling back." ;;;
         ret Fallthrough)
  else ret Fallthrough.

(** [lambda d: list(d.text(query, max_results=..., region=..., ...))]. *)
Definition text_fn (self : Wrapper) (query : string) (max_results : Z)
    : M (list Dict) :=
  call (EvDdgsText query max_results)
    (fun w => ddgs_text X w query max_results (self_region self)
                (self_safesearch self) (self_time self)).

(** Tier 2 with its [except DDGSException] clause.  The value returned
    is that of [_with_ddgs], [None] included. *)
Definition ddgs_tier (self : Wrapper) (query : string) (max_results : Z)
    : M (Flow (option (list Dict))) :=
  try_except
    (r <- _with_ddgs (self_proxy self) (self_headers self)
            (text_fn self query max_results) default_retries default_backoff ;;
     ret (Returned r))
    DDGSException
    (fun exc =>
       log Warning "ddgs tier failed; falling back to raw scrape." ;;;
       ret Fallthrough).

(** Tier 3 as called by the dispatcher. *)
Definition scrape_tier (self : Wrapper) (query : string) (max_results : Z)
    : M (list Dict) :=
  _requests_scrape query max_results (self_proxy self) (self_headers self) 10.

Definition _search_text (self : Wrapper) (query : string) (max_results : Z)
    : M (option (list Dict)) :=
  r0 <- primp_tier self query max_results ;;
  match r0 with
  | Returned out => ret (Some out)
  | Fallthrough =>
      r1 <- browser_tier self query max_results ;;
      match r1 with
      | Returned out => ret (Some out)
      | Fallthrough =>
          log Stdout "Done with Selenium try" ;;;
          r2 <- ddgs_tier self query max_results ;;
          match r2 with
          | Returned out => ret out
          | Fallthrough =>
              out <- scrape_tier self query max_results ;;
              ret (Some out)
          end
      end
  end.

(** [kw.get("max_results", self.k)], with [kw] holding at most that key. *)
Definition _ddgs_text (self : Wrapper) (query : string) (kw_max_results : option Z)
    : M (option (list Dict)) :=
  _search_text self query (default (self_k self) kw_max_results).

End Tiers.

(** * Observations on runs *)

(** ** Relations between the world before and after a computation *)

Definition preserves {A} (R : relation World) (m : M A) : Prop :=
  ∀ w r w', m w = (r, w') → R w w'.

(** The environment is the same afterwards. *)
Definition same_environ : relation World :=
  λ w w', environ w' = environ w.

(** The trace grew by events that all satisfy [P]. *)
Definition grows (P : Event → Prop) : relation World :=
  λ w w', ∃ evs, trace w' = (trace w ++ evs)%list ∧ Forall P evs.

(** A variable that was set keeps its value. *)
Definition keeps_var (var : string) : relation World :=
  λ w w', ∀ v, environ w !! var = Some v → environ w' !! var = Some v.

(** Every value the computation returns satisfies [Q]. *)
Definition returns {A} (Q : A → Prop) (m : M A) : Prop :=
  ∀ w a w', m w = (Ok a, w') → Q a.

(** Some run of [f x] returns [y]. *)
Definition yields {A B} (f : A → M B) (x : A) (y : B) : Prop :=
  ∃ w w', f x w = (Ok y, w').

(** An event of tier [t], or a sleep. *)
Definition of_tier (t : Tier) (e : Event) : Prop :=
  tier_of e = Some t ∨ tier_of e = None.

(** The trace grew by at least one event, the first one a call of tier
    [t] and the others calls of [t] or sleeps. *)
Definition begins (t : Tier) : relation World :=
  λ w w', ∃ e evs, trace w' = (trace w ++ e :: evs)%list ∧
                   tier_of e = Some t ∧ Forall (of_tier t) evs.

(** No call was made. *)
Definition silent : relation World :=
  λ w w', trace w' = trace w.

(** The tiers in the order the dispatcher reaches them. *)
Definition tier_order (self : Wrapper) : list Tier :=
  ([TierPrimp] ++ (if self_use_browser self then [TierBrowser] else [])
   ++ [TierDdgs; TierScrape])%list.

Definition Tier_eqb (a b : Tier) : bool :=
  match a, b with
  | TierPrimp, TierPrimp | TierBrowser, TierBrowser
  | TierDdgs, TierDdgs | TierScrape, TierScrape => true
  | _, _ => false
  end.

(** Adjacent repetitions collapsed. *)
Fixpoint dedup_adjacent (l : list Tier) : list Tier :=
  match l with
  | [] => []
  | x :: r =>
      match dedup_adjacent r with
      | y :: r' => if Tier_eqb x y then y :: r' else x :: y :: r'
      | [] => [x]
      end
  end.

(** The tiers that made calls, in the order of their first call. *)
Definition tiers_attempted (evs : list Event) : list Tier :=
  dedup_adjacent (omap tier_of evs).

(** The delays passed to [time.sleep], in order. *)
Definition sleeps (evs : list Event) : list float :=
  omap (fun e => match e with EvSleep d => Some d | _ => None end) evs.

(** The number of ddgs sessions opened. *)
Definition attempts (evs : list Event) : nat :=
  length (omap (fun e => match e with EvDdgsOpen p => Some p | _ => None end) evs).

(** The first [k] delays of a backoff that starts at [d] and is
    multiplied by [b] after each failure. *)
Fixpoint delays (d b : float) (k : nat) : list float :=
  match k with
  | O => []
  | S k' => d :: delays (PrimFloat.mul d b) b k'
  end.

(** Neither a sleep nor the opening of a ddgs session. *)
Definition quiet (e : Event) : Prop :=
  match e with
  | EvSleep _ | EvDdgsOpen _ => False
  | _ => True
  end.

(** The proxy [_with_ddgs] settles on. *)
Definition effective_proxy (proxy : option string) (w : World) : option string :=
  py_or (py_or proxy (environ w !! "HTTP_PROXY")) (environ w !! "HTTPS_PROXY").

(** Each tier as one step of the dispatcher, with a common result type. *)
Definition run_tier (X : Externals) (self : Wrapper) (query : string)
    (max_results : Z) (t : Tier) : M (Flow (option (list Dict))) :=
  match t with
  | TierPrimp =>
      r <- primp_tier X self query max_results ;;
      ret (match r with Returned out => Returned (Some out) | Fallthrough => Fallthrough end)
  | TierBrowser =>
      r <- browser_tier X self query max_results ;;
      ret (match r with Returned out => Returned (Some out) | Fallthrough => Fallthrough end)
  | TierDdgs => ddgs_tier X self query max_results
  | TierScrape =>
      out <- scrape_tier X self query max_results ;;
      ret (Returned (Some out))
  end.

(** Two worlds that differ at most in the log. *)
Definition same_io (w w' : World) : Prop :=
  environ w' = environ w ∧ trace w' = trace w.

(** A run that tries the listed tiers in order and stops at the first
    one that returns or raises; the last index lists the tiers tried. *)
Inductive cascade (run : Tier -> M (Flow (option (list Dict))))
    : list Tier -> World -> Res (option (list Dict)) -> World -> list Tier -> Prop :=
| cascade_return t rest w out w' :
    run t w = (Ok (Returned out), w') ->
    cascade run (t :: rest) w (Ok out) w' [t]
| cascade_raise t rest w e w' :
    run t w = (Raise e, w') ->
    cascade run (t :: rest) w (Raise e) w' [t]
| cascade_fall t rest w w1 w1' r w' ts :
    run t w = (Ok Fallthrough, w1) ->
    same_io w1 w1' ->
    cascade run rest w1' r w' ts ->
    cascade run (t :: rest) w r w' (t :: ts).

(** The [id] entries of a result list. *)
Definition ids (out : list Dict) : list (option PyVal) :=
  map (fun d => d !! "id") out.

(** [start, start + 1, ...], [n] Python ints as looked-up values. *)
Fixpoint count_from (start : Z) (n : nat) : list (option PyVal) :=
  match n with
  | O => []
  | S n' => Some (VInt start) :: count_from (start + 1) n'
  end.

(** [1, 2, ..., n]. *)
Definition one_to (n : nat) : list (option PyVal) := count_from 1 n.

(** The world after [print("Done with Selenium try")]. *)
Definition log_done (w : World) : World :=
  mkWorld (environ w) (trace w) (logs w ++ [(Stdout, "Done with Selenium try")])%list.


(** * Concrete worlds

    Scripted libraries, used to run the functions on explicit inputs. *)

Definition anchor (href txt : string) : Element :=
  mkElement {[ "href" := href ]} txt.

(** A page whose result anchors are [links] and whose snippets are
    [snips], whatever the markup. *)
Definition page (links snips : list Element) (markup selector : string)
    : list Element :=
  if String.eqb selector "a.result__a" then links else snips.

(** [Response.raise_for_status] as requests implements it: HTTPError for
    the 4xx and 5xx codes. *)
Definition requests_raise_for_status (resp : Response) : Res unit :=
  if (400 <=? status_code resp) && (status_code resp <? 600)
  then Raise (mkExc HTTPError "status") else Ok tt.

Definition scripted (links snips : list Element)
    (primp : World -> Res Response) (chrome : World -> Res unit)
    (ddgs : World -> Res (list Dict)) (post : World -> Res Response)
    : Externals :=
  {| quote := fun s => s;
     urlencode := fun kv => "q=" ++ default "" (snd <$> head kv);
     uddg_of := fun s => s;
     soup_select := page links snips;
     primp_Client := fun _ => Ok tt;
     primp_headers_update := fun _ => Ok tt;
     primp_get := primp;
     primp_close := fun _ => Ok tt;
     webdriver_Chrome := chrome;
     execute_cdp_cmd := fun _ => Ok tt;
     driver_get := fun _ => Ok tt;
     wait_until := fun _ => Ok tt;
     page_source := fun _ => "<html>";
     driver_quit := fun _ => Ok tt;
     random_uniform := fun _ => 0.005%float;
     ddgs_open := fun _ => Ok tt;
     ddgs_text := fun w _ _ _ _ _ => ddgs w;
     requests_post := post;
     raise_for_status := requests_raise_for_status |}.

Definition two_links : list Element :=
  [anchor "https://doc.rust-lang.org/book/" "The Rust Book";
   anchor "https://example.org/ownership" "Ownership"].

Definition two_snips : list Element :=
  [mkElement ∅ "Ownership is a set of rules"; mkElement ∅ "A tutorial"].

(** Twelve anchors, more than [INTERNAL_MAX_RETURN]. *)
Definition twelve_links : list Element :=
  (fun i => anchor "https://example.org/" (pretty i)) <$> seq 0 12.

Definition plain_wrapper : Wrapper :=
  {| self_k := 10; self_max_results := 10;
     self_region := None; self_safesearch := None; self_time := None;
     self_proxy := None; self_headers := None;
     self_use_browser := false; self_headless := true;
     self_bypass_proxy_for_driver := true |}.

Definition browser_wrapper (headless : bool) : Wrapper :=
  {| self_k := 10; self_max_results := 10;
     self_region := None; self_safesearch := None; self_time := None;
     self_proxy := None; self_headers := None;
     self_use_browser := true; self_headless := headless;
     self_bypass_proxy_for_driver := true |}.

Definition empty_world : World := mkWorld ∅ [] [].

(** A process started with both proxy variables set. *)
Definition proxied_world : World :=
  mkWorld {[ "HTTP_PROXY" := "http://corp:3128";
             "HTTPS_PROXY" := "http://corp:3129" ]} [] [].

Definition ok_page : World -> Res Response :=
  fun _ => Ok (mkResponse 200 "<html>").
Definition unavailable : World -> Res Response :=
  fun _ => Ok (mkResponse 503 "busy").
Definition ddgs_down : World -> Res (list Dict) :=
  fun _ => Raise (mkExc RatelimitException "202 Ratelimit").

(** What ddgs yields for a hit: [title], [href] and [body], no [id]. *)
Definition ddgs_hit : Dict :=
  {[ "title" := VStr "The Rust Book";
     "href" := VStr "https://doc.rust-lang.org/book/";
     "body" := VStr "Ownership is a set of rules" ]}.

(** Scenario B of the testable properties: tiers 2 and 4 fail, browser
    mode is off, the scrape finds anchors. *)
Definition world_scrape_only : Externals :=
  scripted two_links two_snips unavailable (fun _ => Ok tt) ddgs_down ok_page.

(** What the scrape makes of [two_links]. *)
Definition scraped_two : list Dict :=
  [result_dict 1 "The Rust Book" "https://doc.rust-lang.org/book/" "";
   result_dict 2 "Ownership" "https://example.org/ownership" ""].

(** Scenario C: every tier fails. *)
Definition world_all_down : Externals :=
  scripted two_links two_snips unavailable (fun _ => Ok tt) ddgs_down unavailable.


(** Everything answers; the page has twelve anchors. *)
Definition world_twelve : Externals :=
  scripted twelve_links two_snips ok_page (fun _ => Ok tt)
    (fun _ => Ok [ddgs_hit]) ok_page.

(** The page has two anchors and the engine client answers with one hit;
    the impersonated client is down. *)
Definition world_ddgs_answers : Externals :=
  scripted two_links two_snips unavailable (fun _ => Ok tt)
    (fun _ => Ok [ddgs_hit]) ok_page.

(** The driver cannot be started. *)
Definition world_no_driver : Externals :=
  scripted two_links two_snips unavailable
    (fun _ => Raise (mkExc WebDriverException "session not created"))
    (fun _ => Ok [ddgs_hit]) ok_page.

(** * The other entry points *)

(** The client methods behind the non-text searches:
    [d.images], [d.videos] and [d.news]. *)
Record MediaClient := mkMediaClient {
  ddgs_images : World -> string -> Z -> option string -> option string ->
                option string -> Res (list Dict);
  ddgs_videos : World -> string -> Z -> option string -> option string ->
                option string -> Res (list Dict);
  ddgs_news : World -> string -> Z -> option string -> option string ->
              option string -> Res (list Dict)
}.

(** [lambda d: list(d.<kind>(query, max_results=kw.get("max_results",
    self.k), region=..., safesearch=..., timelimit=...))], run inside the
    session [_with_ddgs] opened. *)
Definition media_fn
    (kind : World -> string -> Z -> option string -> option string ->
            option string -> Res (list Dict))
    (self : Wrapper) (query : string) (kw_max_results : option Z)
    : M (list Dict) :=
  fun w => (kind w query (default (self_k self) kw_max_results)
              (self_region self) (self_safesearch self) (self_time self), w).

Definition _ddgs_images (X : Externals) (C : MediaClient) (self : Wrapper)
    (query : string) (kw_max_results : option Z) : M (option (list Dict)) :=
  _with_ddgs X (self_proxy self) (self_headers self)
    (media_fn (ddgs_images C) self query kw_max_results)
    default_retries default_backoff.

Definition _ddgs_videos (X : Externals) (C : MediaClient) (self : Wrapper)
    (query : string) (kw_max_results : option Z) : M (option (list Dict)) :=
  _with_ddgs X (self_proxy self) (self_headers self)
    (media_fn (ddgs_videos C) self query kw_max_results)
    default_retries default_backoff.

Definition _ddgs_news (X : Externals) (C : MediaClient) (self : Wrapper)
    (query : string) (kw_max_results : option Z) : M (option (list Dict)) :=
  _with_ddgs X (self_proxy self) (self_headers self)
    (media_fn (ddgs_news C) self query kw_max_results)
    default_retries default_backoff.

(** The [try] block of [_browser_search]: navigation, the bounded wait
    and the extraction. *)
Definition browser_render (X : Externals) (query : string) (timeout : Z)
    : M (list Dict) :=
  call (EvDriverGet ("https://duckduckgo.com/html/?q=" ++ quote X query))
    (driver_get X) ;;;
  call (EvDriverWait timeout) (wait_until X) ;;;
  w <- get_world ;;
  let soup := page_source X w in
  mapM (browser_entry X
          (slice_to (soup_select X soup "a.result__snippet") INTERNAL_MAX_RETURN))
    (enumerate 0 (slice_to (soup_select X soup "a.result__a") INTERNAL_MAX_RETURN)).

(** The [finally] block of [_browser_search]. *)
Definition browser_cleanup (X : Externals) : M unit :=
  w <- get_world ;;
  emit (EvSleep (random_uniform X w)) ;;;
  suppress (call EvDriverQuit (driver_quit X)).

(** An anchor has an [href]. *)
Definition has_href (a : Element) : bool :=
  bool_decide (is_Some (el_attrs a !! "href")).

(** The trace grew, and the first new event is [e0]. *)
Definition starts_with (e0 : Event) : relation World :=
  λ w w', ∃ evs, trace w' = (trace w ++ e0 :: evs)%list.

(** Any event. *)
Definition any_event (e : Event) : Prop := True.

(** The opening of a ddgs session, or a sleep. *)
Definition session_or_sleep (e : Event) : Prop :=
  match e with
  | EvDdgsOpen _ | EvSleep _ => True
  | _ => False
  end.

(** A computation that raises no instance of Exception. *)
Definition no_Exception {A} (m : M A) : Prop :=
  ∀ w e w', m w = (Raise e, w') → isinstance e PyException = false.

(** A map extends another: every binding is kept. *)
Definition keeps_all : relation World :=
  λ w w', environ w ⊆ environ w'.

(** More concrete worlds. *)

(** A browser whose header injection and whose [quit] fail, on a page
    of two anchors; the other tiers are down. *)
Definition world_flaky_driver : Externals :=
  {| quote := fun s => s;
     urlencode := fun kv => "q=" ++ default "" (snd <$> head kv);
     uddg_of := fun s => s;
     soup_select := page two_links two_snips;
     primp_Client := fun _ => Raise (mkExc TypeError "no such profile");
     primp_headers_update := fun _ => Ok tt;
     primp_get := unavailable;
     primp_close := fun _ => Ok tt;
     webdriver_Chrome := fun _ => Ok tt;
     execute_cdp_cmd := fun _ => Raise (mkExc WebDriverException "unknown command");
     driver_get := fun _ => Ok tt;
     wait_until := fun _ => Ok tt;
     page_source := fun _ => "<html>";
     driver_quit := fun _ => Raise (mkExc WebDriverException "already gone");
     random_uniform := fun _ => 0.005%float;
     ddgs_open := fun _ => Ok tt;
     ddgs_text := fun _ _ _ _ _ _ => Raise (mkExc DDGSException "down");
     requests_post := unavailable;
     raise_for_status := requests_raise_for_status |}.

(** A wrapper with extra headers, for the browser. *)
Definition header_wrapper : Wrapper :=
  {| self_k := 10; self_max_results := 10;
     self_region := Some "us-en"; self_safesearch := Some "Strict";
     self_time := Some "w";
     self_proxy := Some "http://corp:3128";
     self_headers := Some {[ "Accept-Language" := "en" ]};
     self_use_browser := true; self_headless := true;
     self_bypass_proxy_for_driver := true |}.

(** An image client that is rate-limited. *)
Definition media_down : MediaClient :=
  {| ddgs_images := fun _ _ _ _ _ _ => Raise (mkExc RatelimitException "202");
     ddgs_videos := fun _ _ _ _ _ _ => Raise (mkExc RatelimitException "202");
     ddgs_news := fun _ _ _ _ _ _ => Raise (mkExc RatelimitException "202") |}.

(** * The libraries as the module binds them *)

(** Line 18, [from ddgs import ddgs], binds the name [ddgs] to the module
    [ddgs.ddgs] (the class is [DDGS], imported on line 19 and no longer
    used), and line 71 calls that name.  Calling a module raises
    TypeError. *)
Definition module_not_callable : PyExc :=
  mkExc TypeError "'module' object is not callable".

(** The libraries with [ddgs(...)] as line 18 binds it; every other
    answer is left open. *)
Definition as_imported (X : Externals) : Externals :=
  {| quote := quote X;
     urlencode := urlencode X;
     uddg_of := uddg_of X;
     soup_select := soup_select X;
     primp_Client := primp_Client X;
     primp_headers_update := primp_headers_update X;
     primp_get := primp_get X;
     primp_close := primp_close X;
     webdriver_Chrome := webdriver_Chrome X;
     execute_cdp_cmd := execute_cdp_cmd X;
     driver_get := driver_get X;
     wait_until := wait_until X;
     page_source := page_source X;
     driver_quit := driver_quit X;
     random_uniform := random_uniform X;
     ddgs_open := fun _ => Raise module_not_callable;
     ddgs_text := ddgs_text X;
     requests_post := requests_post X;
     raise_for_status := raise_for_status X |}.

(** The libraries with [resp.raise_for_status()] of line 220 as requests
    implements it; every other answer is left open. *)
Definition with_requests (X : Externals) : Externals :=
  {| quote := quote X;
     urlencode := urlencode X;
     uddg_of := uddg_of X;
     soup_select := soup_select X;
     primp_Client := primp_Client X;
     primp_headers_update := primp_headers_update X;
     primp_get := primp_get X;
     primp_close := primp_close X;
     webdriver_Chrome := webdriver_Chrome X;
     execute_cdp_cmd := execute_cdp_cmd X;
     driver_get := driver_get X;
     wait_until := wait_until X;
     page_source := page_source X;
     driver_quit := driver_quit X;
     random_uniform := random_uniform X;
     ddgs_open := ddgs_open X;
     ddgs_text := ddgs_text X;
     requests_post := requests_post X;
     raise_for_status := requests_raise_for_status |}.

(** * Where an exception is raised *)

(** The world in which a library call recorded as [e] is answered. *)
Definition at_call (e : Event) (w : World) : World :=
  mkWorld (environ w) (trace w ++ [e])%list (logs w).



(** The world after a failed session that is retried: the warning is
    logged and the delay slept. *)
Definition after_retry (sleep : float) (w : World) : World :=
  mkWorld (environ w) (trace w ++ [EvSleep sleep])%list
    (logs w ++ [(Warning, "ddgs raised (try)")])%list.


Definition scrape_post (X : Externals) (query : string) : Event :=
  EvPost "https://html.duckduckgo.com/html" (urlencode X [("q", query)]).




(** * Concrete worlds for the status check and the handlers *)

(** The answer 304 Not Modified, with a page. *)
Definition not_modified : World -> Res Response :=
  fun _ => Ok (mkResponse 304 "<html>").

(** The POST is answered 304; the other tiers are down. *)
Definition world_not_modified : Externals :=
  scripted two_links two_snips unavailable (fun _ => Ok tt) ddgs_down not_modified.

(** The impersonated client cannot be created, the browser refuses the
    CDP commands with a TypeError and its [quit] raises a KeyError; the
    page it rendered has two anchors. *)
Definition world_sloppy_browser : Externals :=
  {| quote := fun s => s;
     urlencode := fun kv => "q=" ++ default "" (snd <$> head kv);
     uddg_of := fun s => s;
     soup_select := page two_links two_snips;
     primp_Client := fun _ => Raise (mkExc TypeError "no such profile");
     primp_headers_update := fun _ => Ok tt;
     primp_get := unavailable;
     primp_close := fun _ => Ok tt;
     webdriver_Chrome := fun _ => Ok tt;
     execute_cdp_cmd := fun _ => Raise (mkExc TypeError "headers must be a dict");
     driver_get := fun _ => Ok tt;
     wait_until := fun _ => Ok tt;
     page_source := fun _ => "<html>";
     driver_quit := fun _ => Raise (mkExc KeyError "session");
     random_uniform := fun _ => 0.005%float;
     ddgs_open := fun _ => Ok tt;
     ddgs_text := fun _ _ _ _ _ _ => Raise (mkExc DDGSException "down");
     requests_post := unavailable;
     raise_for_status := requests_raise_for_status |}.

(** What the browser tier makes of [two_links] and [two_snips]. *)
Definition rendered_two : list Dict :=
  [result_dict 1 "The Rust Book" "https://doc.rust-lang.org/book/"
     (browser_body 0 "Ownership is a set of rules"
        "https://doc.rust-lang.org/book/");
   result_dict 2 "Ownership" "https://example.org/ownership"
     (browser_body 1 "A tutorial" "https://example.org/ownership")].

(** * Reasoning about computations *)

(* From here on [++] is list concatenation. *)
Open Scope list_scope.

Section Preserves.

Context (R : relation World) `{!PreOrder R}.

Lemma preserves_ret {A} (a : A) : preserves R (ret a).
Proof. intros w r w' [= <- <-]. reflexivity. Qed.

Lemma preserves_raise {A} e : preserves R (@raise A e).
Proof. intros w r w' [= <- <-]. reflexivity. Qed.

Lemma preserves_bind {A B} (m : M A) (k : A → M B) :
  preserves R m → (∀ a, preserves R (k a)) → preserves R (bind m k).
Proof.
  intros Hm Hk w r w'. unfold bind.
  destruct (m w) as [[a|e] w1] eqn:E; intros H.
  - transitivity w1; [eapply Hm, E | eapply Hk, H].
  - injection H as <- <-. eapply Hm, E.
Qed.

Lemma preserves_try_except {A} (m : M A) k h :
  preserves R m → (∀ e, preserves R (h e)) → preserves R (try_except m k h).
Proof.
  intros Hm Hh w r w'. unfold try_except.
  destruct (m w) as [[a|e] w1] eqn:E; intros H.
  - injection H as <- <-. eapply Hm, E.
  - destruct (isinstance e k).
    + transitivity w1; [eapply Hm, E | eapply Hh, H].
    + injection H as <- <-. eapply Hm, E.
Qed.

Lemma preserves_try_finally {A} (m : M A) f :
  preserves R m → preserves R f → preserves R (try_finally m f).
Proof.
  intros Hm Hf w r w'. unfold try_finally.
  destruct (m w) as [r1 w1] eqn:E.
  destruct (f w1) as [[[]|e] w2] eqn:F; intros [= <- <-];
    (transitivity w1; [eapply Hm, E | eapply Hf, F]).
Qed.

Lemma preserves_suppress m : preserves R m → preserves R (suppress m).
Proof.
  intros Hm. apply preserves_try_except; [done|]. intros _. apply preserves_ret.
Qed.

Lemma preserves_mapM {A B} (f : A → M B) l :
  (∀ a, preserves R (f a)) → preserves R (mapM f l).
Proof.
  intros Hf. induction l as [|x l IH]; simpl.
  - apply preserves_ret.
  - apply preserves_bind; [done|]. intros y.
    apply preserves_bind; [done|]. intros ys. apply preserves_ret.
Qed.

Lemma preserves_get_world : preserves R get_world.
Proof. intros w r w' [= <- <-]. reflexivity. Qed.

Lemma preserves_getenv k : preserves R (getenv k).
Proof. intros w r w' [= <- <-]. reflexivity. Qed.

Lemma preserves_getenv_default k d : preserves R (getenv_default k d).
Proof. intros w r w' [= <- <-]. reflexivity. Qed.

Lemma preserves_getitem a k : preserves R (getitem a k).
Proof.
  unfold getitem. destruct (el_attrs a !! k);
    [apply preserves_ret | apply preserves_raise].
Qed.

Lemma preserves_browser_entry X snips item :
  preserves R (browser_entry X snips item).
Proof.
  destruct item as [idx link]. unfold browser_entry.
  apply preserves_bind; [apply preserves_getitem|].
  intros raw_href. apply preserves_ret.
Qed.

Lemma preserves_scrape_entry item : preserves R (scrape_entry item).
Proof.
  destruct item as [i a]. unfold scrape_entry.
  apply preserves_bind; [apply preserves_getitem|].
  intros href. apply preserves_ret.
Qed.

Lemma preserves_pure {A} (f : World → Res A) :
  preserves R (λ w, (f w, w)).
Proof. intros w r w' [= <- <-]. reflexivity. Qed.

Lemma preserves_call {A} e (oracle : World → Res A) :
  preserves R (emit e) → preserves R (call e oracle).
Proof.
  intros He. apply preserves_bind; [done|]. intros _. apply preserves_pure.
Qed.

End Preserves.

#[local] Instance same_environ_preorder : PreOrder same_environ.
Proof.
  split; [done|]. intros a b c H1 H2. unfold same_environ in *. congruence.
Qed.

#[local] Instance grows_preorder P : PreOrder (grows P).
Proof.
  split.
  - intros w. exists []. by rewrite app_nil_r.
  - intros a b c (e1 & H1 & F1) (e2 & H2 & F2). exists (e1 ++ e2).
    rewrite H2, H1, app_assoc. split; [done|]. by apply Forall_app.
Qed.

#[local] Instance keeps_var_preorder var : PreOrder (keeps_var var).
Proof.
  split; [by intros w v|]. intros a b c H1 H2 v Hv. by apply H2, H1.
Qed.

(** One step through the structure of a computation. *)
Create HintDb pres.

Ltac pres_step :=
  first
    [ solve [auto with pres nocore]
    | apply preserves_ret | apply preserves_raise | apply preserves_get_world
    | apply preserves_getenv | apply preserves_getenv_default
    | apply preserves_getitem
    | match goal with
      | |- preserves _ (browser_entry _ _ _) => apply preserves_browser_entry
      | |- preserves _ (scrape_entry _) => apply preserves_scrape_entry
      end
    | apply preserves_bind
    | apply preserves_try_except | apply preserves_try_finally
    | apply preserves_suppress | apply preserves_mapM | apply preserves_call
    | apply preserves_pure
    | match goal with
      | |- preserves _ (if ?b then _ else _) => destruct b
      | |- preserves _ (match ?x with _ => _ end) => destruct x
      end ];
  try typeclasses eauto.

Ltac pres := repeat (intros; pres_step).

Lemma same_environ_emit e : preserves same_environ (emit e).
Proof. by intros w r w' [= <- <-]. Qed.

Lemma same_environ_log l s : preserves same_environ (log l s).
Proof. by intros w r w' [= <- <-]. Qed.

#[local] Hint Resolve same_environ_emit same_environ_log : pres.

Lemma grows_emit (P : Event → Prop) e : P e → preserves (grows P) (emit e).
Proof.
  intros HP w r w' [= <- <-]. exists [e]. split; [done|]. by constructor.
Qed.

Lemma grows_log P l s : preserves (grows P) (log l s).
Proof. intros w r w' [= <- <-]. exists []. simpl. by rewrite app_nil_r. Qed.

Lemma grows_set_environ P env : preserves (grows P) (set_environ env).
Proof. intros w r w' [= <- <-]. exists []. simpl. by rewrite app_nil_r. Qed.

Lemma grows_setdefault P k v : preserves (grows P) (environ_setdefault k v).
Proof.
  intros w r w'. unfold environ_setdefault.
  destruct (environ w !! k); intros [= <- <-]; exists []; simpl;
    by rewrite app_nil_r.
Qed.

Lemma keeps_var_same_environ {A} (m : M A) var :
  preserves same_environ m → preserves (keeps_var var) m.
Proof.
  intros H w r w' E v Hv. by rewrite (H w r w' E).
Qed.

Lemma keeps_var_setdefault var k v :
  preserves (keeps_var var) (environ_setdefault k v).
Proof.
  intros w r w'. unfold environ_setdefault.
  destruct (environ w !! k) eqn:E; intros [= <- <-] u Hu; [done|]. simpl.
  rewrite lookup_insert_ne; [done|]. intros ->. congruence.
Qed.

#[local] Hint Resolve grows_log grows_set_environ grows_setdefault
  keeps_var_setdefault : pres.

(** ** The environment around driver start-up *)

Lemma pop_var_restore saved env var :
  saved ##ₘ env →
  (pop_var (saved, env) var).1 ##ₘ (pop_var (saved, env) var).2 ∧
  (pop_var (saved, env) var).1 ∪ (pop_var (saved, env) var).2 = saved ∪ env.
Proof.
  intros Hd. unfold pop_var. destruct (env !! var) as [v|] eqn:E; simpl.
  - assert (saved !! var = None) as Hs.
    { destruct (saved !! var) eqn:S; [|done].
      exfalso. eapply map_disjoint_spec; eauto. }
    split.
    + apply map_disjoint_insert_l. split; [apply lookup_delete_eq|].
      by apply map_disjoint_delete_r.
    + by apply union_insert_delete.
  - done.
Qed.

Lemma foldl_pop_var_restore vars saved env :
  saved ##ₘ env →
  (foldl pop_var (saved, env) vars).1 ∪ (foldl pop_var (saved, env) vars).2
  = saved ∪ env.
Proof.
  revert saved env. induction vars as [|var vars IH]; intros saved env Hd; [done|].
  cbn [foldl]. destruct (pop_var_restore saved env var Hd) as [Hd' Hu].
  destruct (pop_var (saved, env) var) as [s' e']. cbn [fst snd] in *.
  rewrite IH; done.
Qed.

(** After the loop no popped variable is left in the environment. *)
Lemma pop_var_absent st var :
  (pop_var st var).2 !! var = None.
Proof.
  destruct st as [saved env]. unfold pop_var. destruct (env !! var) eqn:E; simpl; [apply lookup_delete_eq|done].
Qed.

Section Environment.

Variable X : Externals.

Lemma inject_headers_same_environ headers :
  preserves same_environ (inject_headers X headers).
Proof.
  unfold inject_headers. destruct (truthy_dict headers); pres.
Qed.

(** Clearing, starting the driver and updating give back the environment
    the call started with, whatever the driver constructor answers. *)
Lemma driver_startup_same_environ bypass opts :
  preserves same_environ
    (saved_env <- clear_proxy_env bypass ;;
     try_finally (call (EvDriverNew opts) (webdriver_Chrome X))
       (environ_update saved_env)).
Proof.
  intros w r w'. unfold bind at 1, clear_proxy_env.
  set (st := if bypass
             then foldl pop_var (∅, environ w) ["HTTP_PROXY"; "HTTPS_PROXY"]
             else (∅, environ w)).
  assert (st.1 ∪ st.2 = environ w) as Hst.
  { subst st. destruct bypass.
    - rewrite foldl_pop_var_restore by apply map_disjoint_empty_l.
      apply (left_id_L ∅ (∪)).
    - apply (left_id_L ∅ (∪)). }
  clearbody st. destruct st as [saved env]. cbn [fst snd] in *.
  unfold try_finally.
  destruct (call _ _ _) as [r0 w0] eqn:C.
  apply (preserves_call same_environ) in C; [|apply same_environ_emit].
  unfold same_environ in C. cbn [environ] in C.
  unfold environ_update. intros [= <- <-]. unfold same_environ. cbn [environ].
  by rewrite C.
Qed.

Lemma new_driver_same_environ proxy headers headless bypass :
  preserves same_environ (_new_driver X proxy headers headless bypass).
Proof.
  unfold _new_driver.
  pose proof (driver_startup_same_environ bypass
                (driver_options proxy headless)) as Hs.
  intros w r w'. unfold bind at 1.
  destruct (clear_proxy_env bypass w) as [[saved|e] w1] eqn:E.
  2:{ unfold clear_proxy_env in E. discriminate. }
  specialize (Hs w). unfold bind at 1 in Hs. rewrite E in Hs.
  unfold bind at 1.
  destruct (try_finally _ _ w1) as [[[]|e] w2] eqn:F.
  - intros H. apply inject_headers_same_environ in H.
    specialize (Hs _ _ eq_refl). unfold same_environ in *. congruence.
  - intros [= <- <-]. by apply (Hs _ _ eq_refl).
Qed.

End Environment.

#[local] Hint Resolve new_driver_same_environ : pres.

Section EnvironmentOfTiers.

Variable X : Externals.

Lemma browser_search_same_environ q n proxy headers headless bypass timeout :
  preserves same_environ
    (_browser_search X q n proxy headers headless bypass timeout).
Proof.
  unfold _browser_search. pres.
Qed.

Lemma text_fn_same_environ self q n :
  preserves same_environ (text_fn X self q n).
Proof. unfold text_fn. pres. Qed.

Lemma ddgs_attempts_preserves (R : relation World) `{!PreOrder R} {A}
    proxy (fn : M A) retries backoff todo attempt sleep :
  preserves R fn →
  (∀ p, preserves R (emit (EvDdgsOpen p))) →
  (∀ d, preserves R (emit (EvSleep d))) →
  (∀ l s, preserves R (log l s)) →
  preserves R (ddgs_attempts X proxy fn retries backoff todo attempt sleep).
Proof.
  intros Hfn Hopen Hsleep Hlog. revert attempt sleep.
  induction todo as [|todo IH]; intros attempt sleep; simpl; pres.
Qed.

Lemma with_ddgs_keeps_var {A} var proxy headers (fn : M A) retries backoff :
  preserves same_environ fn →
  preserves (keeps_var var) (_with_ddgs X proxy headers fn retries backoff).
Proof.
  intros Hfn. unfold _with_ddgs, export_proxy. pres.
  intros _. apply ddgs_attempts_preserves; [apply _|..].
  - by apply keeps_var_same_environ.
  - intros e. apply keeps_var_same_environ, same_environ_emit.
  - intros e. apply keeps_var_same_environ, same_environ_emit.
  - intros l s. apply keeps_var_same_environ, same_environ_log.
Qed.

End EnvironmentOfTiers.

(** ** Traces *)

#[local] Instance silent_preorder : PreOrder silent.
Proof.
  split; [done|]. intros a b c H1 H2. unfold silent in *. congruence.
Qed.

Lemma silent_log l s : preserves silent (log l s).
Proof. by intros w r w' [= <- <-]. Qed.

Lemma silent_set_environ env : preserves silent (set_environ env).
Proof. by intros w r w' [= <- <-]. Qed.

Lemma silent_setdefault k v : preserves silent (environ_setdefault k v).
Proof.
  intros w r w'. unfold environ_setdefault.
  by destruct (environ w !! k); intros [= <- <-].
Qed.

#[local] Hint Resolve silent_log silent_set_environ silent_setdefault : pres.

Lemma grows_silent {A} P (m : M A) : preserves silent m → preserves (grows P) m.
Proof.
  intros H w r w' E. exists []. rewrite app_nil_r. split; [|done].
  exact (H w r w' E).
Qed.

Lemma begins_call {A} t e (oracle : World → Res A) :
  tier_of e = Some t → preserves (begins t) (call e oracle).
Proof.
  intros Ht w r w'. unfold call, bind, emit. intros [= <- <-].
  exists e, []. by split.
Qed.

Lemma begins_grows t w1 w2 w3 :
  begins t w1 w2 → grows (of_tier t) w2 w3 → begins t w1 w3.
Proof.
  intros (e & evs & H1 & Ht & F1) (evs' & H2 & F2).
  exists e, (evs ++ evs'). rewrite H2, H1, <- app_assoc. simpl.
  split; [done|]. split; [done|]. by apply Forall_app.
Qed.

Lemma silent_begins t w1 w2 w3 :
  silent w1 w2 → begins t w2 w3 → begins t w1 w3.
Proof.
  intros H1 (e & evs & H2 & Ht & F). exists e, evs. by rewrite H2, H1.
Qed.

Lemma begins_bind {A B} t (m : M A) (k : A → M B) :
  preserves (begins t) m → (∀ a, preserves (grows (of_tier t)) (k a)) →
  preserves (begins t) (bind m k).
Proof.
  intros Hm Hk w r w'. unfold bind.
  destruct (m w) as [[a|e] w1] eqn:E; intros H.
  - eapply begins_grows; [eapply Hm, E | eapply Hk, H].
  - injection H as <- <-. eapply Hm, E.
Qed.

Lemma begins_bind_silent {A B} t (m : M A) (k : A → M B) :
  preserves silent m → (∀ e w, (m w).1 ≠ Raise e) →
  (∀ a, preserves (begins t) (k a)) →
  preserves (begins t) (bind m k).
Proof.
  intros Hm Hok Hk w r w'. unfold bind.
  destruct (m w) as [[a|e] w1] eqn:E; intros H.
  - eapply silent_begins; [eapply Hm, E | eapply Hk, H].
  - exfalso. apply (Hok e w). by rewrite E.
Qed.

Lemma begins_try_except {A} t (m : M A) k h :
  preserves (begins t) m → (∀ e, preserves (grows (of_tier t)) (h e)) →
  preserves (begins t) (try_except m k h).
Proof.
  intros Hm Hh w r w'. unfold try_except.
  destruct (m w) as [[a|e] w1] eqn:E; intros H.
  - injection H as <- <-. eapply Hm, E.
  - destruct (isinstance e k).
    + eapply begins_grows; [eapply Hm, E | eapply Hh, H].
    + injection H as <- <-. eapply Hm, E.
Qed.

Lemma begins_try_finally {A} t (m : M A) f :
  preserves (begins t) m → preserves (grows (of_tier t)) f →
  preserves (begins t) (try_finally m f).
Proof.
  intros Hm Hf w r w'. unfold try_finally.
  destruct (m w) as [r1 w1] eqn:E.
  destruct (f w1) as [[[]|e] w2] eqn:F; intros [= <- <-];
    (eapply begins_grows; [eapply Hm, E | eapply Hf, F]).
Qed.

(** *** What the trace of a run says about the tiers *)

Lemma Tier_eqb_eq a b : Tier_eqb a b = true ↔ a = b.
Proof. destruct a, b; simpl; split; congruence. Qed.

Lemma Tier_eqb_refl a : Tier_eqb a a = true.
Proof. by apply Tier_eqb_eq. Qed.

Lemma omap_of_tier t evs :
  Forall (of_tier t) evs → ∃ k, omap tier_of evs = replicate k t.
Proof.
  induction 1 as [|e evs [He|He] _ [k IH]].
  - by exists O.
  - exists (S k). csimpl. by rewrite He, IH.
  - exists k. csimpl. by rewrite He.
Qed.

Lemma dedup_replicate k t : dedup_adjacent (replicate (S k) t) = [t].
Proof.
  induction k as [|k IH]; [done|].
  change (replicate (S (S k)) t) with (t :: replicate (S k) t).
  cbn [dedup_adjacent]. rewrite IH. by rewrite Tier_eqb_refl.
Qed.

Lemma dedup_replicate_app k t l y r :
  dedup_adjacent l = y :: r → Tier_eqb t y = false →
  dedup_adjacent (replicate (S k) t ++ l) = t :: y :: r.
Proof.
  intros Hl Hne. induction k as [|k IH].
  - simpl. by rewrite Hl, Hne.
  - change (replicate (S (S k)) t ++ l) with (t :: (replicate (S k) t ++ l)).
    cbn [dedup_adjacent]. rewrite IH. by rewrite Tier_eqb_refl.
Qed.

Lemma tiers_attempted_begins t e evs :
  tier_of e = Some t → Forall (of_tier t) evs →
  tiers_attempted (e :: evs) = [t].
Proof.
  intros He F. unfold tiers_attempted.
  destruct (omap_of_tier t evs F) as [k Hk].
  csimpl. rewrite He, Hk. apply (dedup_replicate k).
Qed.

Lemma tiers_attempted_begins_app t e evs evs' y r :
  tier_of e = Some t → Forall (of_tier t) evs →
  tiers_attempted evs' = y :: r → Tier_eqb t y = false →
  tiers_attempted ((e :: evs) ++ evs') = t :: y :: r.
Proof.
  intros He F Hl Hne. unfold tiers_attempted in *.
  destruct (omap_of_tier t evs F) as [k Hk].
  rewrite omap_app. csimpl. rewrite He, Hk. by apply (dedup_replicate_app k).
Qed.

#[local] Hint Extern 1 (of_tier _ _) =>
  first [left; reflexivity | right; reflexivity] : pres.
#[local] Hint Resolve grows_emit : pres.

Ltac beg_step :=
  first
    [ apply begins_call; reflexivity
    | apply begins_try_except
    | apply begins_try_finally
    | apply begins_bind_silent; [solve [pres] | done | intros]
    | apply begins_bind ].

Section TraceOfTiers.

Variable X : Externals.

Lemma primp_tier_begins self q n :
  preserves (begins TierPrimp) (primp_tier X self q n).
Proof.
  unfold primp_tier, primp_block. repeat beg_step; pres.
Qed.

Lemma new_driver_begins proxy headers headless bypass :
  preserves (begins TierBrowser) (_new_driver X proxy headers headless bypass).
Proof.
  unfold _new_driver.
  apply begins_bind_silent.
  - by intros w r w' [= <- <-].
  - done.
  - intros saved. apply begins_bind.
    + apply begins_try_finally; [by apply begins_call|].
      apply grows_silent. by intros w r w' [= <- <-].
    + intros _. unfold inject_headers. pres.
Qed.

Lemma browser_search_begins q n proxy headers headless bypass timeout :
  preserves (begins TierBrowser)
    (_browser_search X q n proxy headers headless bypass timeout).
Proof.
  unfold _browser_search.
  apply begins_bind_silent; [pres | done | intros _].
  apply begins_bind; [apply new_driver_begins|]. pres.
Qed.

Lemma browser_tier_begins self q n :
  self_use_browser self = true →
  preserves (begins TierBrowser) (browser_tier X self q n).
Proof.
  intros Hb. unfold browser_tier. rewrite Hb.
  apply begins_try_except; [|pres].
  apply begins_bind; [apply browser_search_begins|pres].
Qed.

Lemma text_fn_grows self q n :
  preserves (grows (of_tier TierDdgs)) (text_fn X self q n).
Proof. unfold text_fn. pres. Qed.

Lemma ddgs_attempts_begins {A} proxy (fn : M A) retries backoff todo attempt sleep :
  preserves (grows (of_tier TierDdgs)) fn →
  preserves (begins TierDdgs)
    (ddgs_attempts X proxy fn retries backoff (S todo) attempt sleep).
Proof.
  intros Hfn.
  change (ddgs_attempts X proxy fn retries backoff (S todo) attempt sleep)
    with (r <- try_except
                 (a <- ddgs_session X proxy fn ;; ret (Returned a))
                 DDGSException
                 (fun exc =>
                    log Warning "ddgs raised (try)" ;;;
                    if attempt =? retries then raise exc
                    else emit (EvSleep sleep) ;;; ret Fallthrough) ;;
          match r with
          | Returned a => ret (Some a)
          | Fallthrough =>
              ddgs_attempts X proxy fn retries backoff todo (attempt + 1)
                (PrimFloat.mul sleep backoff)
          end).
  apply begins_bind.
  - apply begins_try_except; [|pres].
    apply begins_bind; [|pres]. unfold ddgs_session.
    apply begins_bind; [by apply begins_call|]. by intros _.
  - intros [r|]; [pres|].
    apply ddgs_attempts_preserves; [apply _|done|pres..].
Qed.

Lemma ddgs_tier_begins self q n :
  preserves (begins TierDdgs) (ddgs_tier X self q n).
Proof.
  unfold ddgs_tier. apply begins_try_except; [|pres].
  apply begins_bind; [|pres]. unfold _with_ddgs, export_proxy.
  do 3 (apply begins_bind_silent; [pres | try done | intros]).
  { intros e w. destruct (truthy_str _); [|done].
    unfold bind, environ_setdefault. repeat case_match; by simplify_eq. }
  change (Z.to_nat default_retries) with 3%nat.
  apply ddgs_attempts_begins, text_fn_grows.
Qed.

Lemma scrape_tier_begins self q n :
  preserves (begins TierScrape) (scrape_tier X self q n).
Proof.
  unfold scrape_tier, _requests_scrape.
  apply begins_bind; [by apply begins_call|]. pres.
Qed.

Lemma run_tier_begins self q n t :
  t ∈ tier_order self →
  preserves (begins t) (run_tier X self q n t).
Proof.
  intros Hin. destruct t; simpl.
  - apply begins_bind; [apply primp_tier_begins|pres].
  - apply begins_bind; [|pres]. apply browser_tier_begins.
    unfold tier_order in Hin. destruct (self_use_browser self); [done|].
    simpl in Hin.
    do 3 (apply elem_of_cons in Hin as [?|Hin]; [done|]).
    by apply elem_of_nil in Hin.
  - apply ddgs_tier_begins.
  - apply begins_bind; [apply scrape_tier_begins|pres].
Qed.

End TraceOfTiers.

(** ** Runs of the dispatcher as cascades *)

Section Cascade.

Variable run : Tier → M (Flow (option (list Dict))).

Lemma cascade_trace tiers w r w' ts :
  (∀ t, t ∈ tiers → preserves (begins t) (run t)) →
  NoDup tiers →
  cascade run tiers w r w' ts →
  ts ≠ [] ∧ ts `prefix_of` tiers ∧
  ∃ evs, trace w' = trace w ++ evs ∧ tiers_attempted evs = ts.
Proof.
  intros Hrun Hnd Hc.
  induction Hc as [t rest w out w' E|t rest w e w' E
                  |t rest w w1 w1' r w' ts E [_ Hio] Hc IH].
  - split; [done|]. split; [apply prefix_cons, prefix_nil|].
    destruct (Hrun t (list_elem_of_here _ _) _ _ _ E) as (e & evs & Ht & He & F).
    exists (e :: evs). split; [done|]. by apply tiers_attempted_begins.
  - split; [done|]. split; [apply prefix_cons, prefix_nil|].
    destruct (Hrun t (list_elem_of_here _ _) _ _ _ E) as (e0 & evs & Ht & He & F).
    exists (e0 :: evs). split; [done|]. by apply tiers_attempted_begins.
  - apply NoDup_cons in Hnd as [Hnotin Hnd].
    destruct IH as (Hne & Hpre & evs2 & Ht2 & Ha2); [|done|].
    { intros t' Hin. apply Hrun. by apply list_elem_of_further. }
    split; [done|]. split; [by apply prefix_cons|].
    destruct (Hrun t (list_elem_of_here _ _) _ _ _ E) as (e & evs1 & Ht1 & He & F).
    exists ((e :: evs1) ++ evs2). split.
    + rewrite Ht2, Hio, Ht1. by rewrite <- app_assoc.
    + destruct ts as [|y ts']; [done|].
      apply (tiers_attempted_begins_app t e evs1 evs2 y ts'); try done.
      destruct (Tier_eqb t y) eqn:Eq; [|done].
      apply Tier_eqb_eq in Eq as ->. exfalso. apply Hnotin.
      destruct Hpre as [k ->]. apply list_elem_of_here.
Qed.

(** A returned list is the value one tier returned, and that tier is the
    last one tried. *)
Lemma cascade_source tiers w out w' ts :
  cascade run tiers w (Ok out) w' ts →
  ∃ t wpre, last ts = Some t ∧ run t wpre = (Ok (Returned out), w').
Proof.
  intros Hc. remember (Ok out) as r eqn:Hr.
  induction Hc as [t rest w out0 w' E|t rest w e w' E
                  |t rest w w1 w1' r w' ts E Hio Hc IH].
  - injection Hr as ->. by exists t, w.
  - discriminate.
  - destruct (IH Hr) as (t' & wpre & Hl & Hrun). exists t', wpre.
    split; [|done]. destruct ts as [|y ts']; [done|]. by rewrite last_cons, Hl.
Qed.

(** Every tier tried before the last one ran off its end. *)
Lemma cascade_earlier tiers w r w' ts t :
  cascade run tiers w r w' ts →
  t ∈ removelast ts →
  ∃ wa wb, run t wa = (Ok Fallthrough, wb).
Proof.
  intros Hc. induction Hc as [t0 rest w out0 w' E|t0 rest w e w' E
                  |t0 rest w w1 w1' r w' ts E Hio Hc IH]; simpl.
  - by intros ?%elem_of_nil.
  - by intros ?%elem_of_nil.
  - destruct ts as [|y ts']; [by intros ?%elem_of_nil|].
    intros [->|Hin]%elem_of_cons; [by exists w, w1|]. by apply IH.
Qed.

End Cascade.

Section Dispatcher.

Variable X : Externals.

Lemma tier_order_NoDup self : NoDup (tier_order self).
Proof.
  unfold tier_order. destruct (self_use_browser self); simpl;
    repeat (apply NoDup_cons; split;
            [rewrite ?elem_of_cons, elem_of_nil; intros H; by intuition|]);
    apply NoDup_nil_2.
Qed.

Lemma search_text_cascade self q n w r w' :
  _search_text X self q n w = (r, w') →
  ∃ ts, cascade (run_tier X self q n) (tier_order self) w r w' ts.
Proof.
  unfold _search_text, tier_order. intros H.
  unfold bind at 1 in H.
  destruct (primp_tier X self q n w) as [[[out|]|e] w1] eqn:E1.
  - injection H as <- <-.
    eexists. apply cascade_return. simpl. unfold bind. by rewrite E1.
  - assert (run_tier X self q n TierPrimp w = (Ok Fallthrough, w1)) as R1.
    { simpl. unfold bind. by rewrite E1. }
    unfold bind at 1 in H.
    destruct (self_use_browser self) eqn:Hb.
    + destruct (browser_tier X self q n w1) as [[[out|]|e] w2] eqn:E2.
      * injection H as <- <-.
        eexists. eapply cascade_fall; [exact R1|by split|].
        apply cascade_return. simpl. unfold bind. by rewrite E2.
      * assert (run_tier X self q n TierBrowser w1 = (Ok Fallthrough, w2)) as R2.
        { simpl. unfold bind. by rewrite E2. }
        unfold bind at 1 in H. cbn [log] in H.
        set (w2' := mkWorld (environ w2) (trace w2) _) in H.
        unfold bind at 1 in H.
        destruct (ddgs_tier X self q n w2') as [[[out|]|e] w3] eqn:E3.
        -- injection H as <- <-.
           eexists. eapply cascade_fall; [exact R1|by split|].
           eapply cascade_fall with (w1' := w2'); [exact R2|by split|].
           apply cascade_return. exact E3.
        -- unfold bind at 1 in H.
           destruct (scrape_tier X self q n w3) as [[out|e] w4] eqn:E4;
             injection H as <- <-.
           ++ eexists. eapply cascade_fall; [exact R1|by split|].
              eapply cascade_fall with (w1' := w2'); [exact R2|by split|].
              eapply cascade_fall; [exact E3|by split|].
              apply cascade_return. simpl. unfold bind. by rewrite E4.
           ++ eexists. eapply cascade_fall; [exact R1|by split|].
              eapply cascade_fall with (w1' := w2'); [exact R2|by split|].
              eapply cascade_fall; [exact E3|by split|].
              apply cascade_raise. simpl. unfold bind. by rewrite E4.
        -- injection H as <- <-.
           eexists. eapply cascade_fall; [exact R1|by split|].
           eapply cascade_fall with (w1' := w2'); [exact R2|by split|].
           apply cascade_raise. exact E3.
      * injection H as <- <-.
        eexists. eapply cascade_fall; [exact R1|by split|].
        apply cascade_raise. simpl. unfold bind. by rewrite E2.
    + assert (browser_tier X self q n w1 = (Ok Fallthrough, w1)) as E2.
      { unfold browser_tier. by rewrite Hb. }
      rewrite E2 in H.
      unfold bind at 1 in H. cbn [log] in H.
      set (w1' := mkWorld (environ w1) (trace w1) _) in H.
      unfold bind at 1 in H.
      destruct (ddgs_tier X self q n w1') as [[[out|]|e] w3] eqn:E3.
      * injection H as <- <-.
        eexists. eapply cascade_fall with (w1' := w1'); [exact R1|by split|].
        apply cascade_return. exact E3.
      * unfold bind at 1 in H.
        destruct (scrape_tier X self q n w3) as [[out|e] w4] eqn:E4;
          injection H as <- <-.
        -- eexists. eapply cascade_fall with (w1' := w1'); [exact R1|by split|].
           eapply cascade_fall; [exact E3|by split|].
           apply cascade_return. simpl. unfold bind. by rewrite E4.
        -- eexists. eapply cascade_fall with (w1' := w1'); [exact R1|by split|].
           eapply cascade_fall; [exact E3|by split|].
           apply cascade_raise. simpl. unfold bind. by rewrite E4.
      * injection H as <- <-.
        eexists. eapply cascade_fall with (w1' := w1'); [exact R1|by split|].
        apply cascade_raise. exact E3.
  - injection H as <- <-.
    eexists. apply cascade_raise. simpl. unfold bind. by rewrite E1.
Qed.

End Dispatcher.

(** ** The retry loop *)

Lemma quiet_counts evs :
  Forall quiet evs → attempts evs = 0%nat ∧ sleeps evs = [].
Proof.
  unfold attempts, sleeps.
  induction 1 as [|e evs He _ [IH1 IH2]]; [done|].
  destruct e; try done; csimpl; by rewrite ?IH1, ?IH2.
Qed.

Lemma attempts_app evs1 evs2 :
  attempts (evs1 ++ evs2) = (attempts evs1 + attempts evs2)%nat.
Proof. unfold attempts. by rewrite omap_app, length_app. Qed.

Lemma sleeps_app evs1 evs2 : sleeps (evs1 ++ evs2) = sleeps evs1 ++ sleeps evs2.
Proof. unfold sleeps. by rewrite omap_app. Qed.

Section Retry.

Variable X : Externals.
Context {A : Type} (proxy : option string) (fn : M A).
Hypothesis fn_quiet : preserves (grows quiet) fn.

(** One session opens the client once and does not sleep. *)
Lemma ddgs_session_trace w r w1 :
  ddgs_session X proxy fn w = (r, w1) →
  ∃ evs, trace w1 = trace w ++ evs ∧ attempts evs = 1%nat ∧ sleeps evs = [].
Proof.
  unfold ddgs_session, call, bind, emit. simpl.
  destruct (ddgs_open X _) as [[]|e] eqn:E.
  - intros H. destruct (fn_quiet _ _ _ H) as (evs & Ht & Hq).
    simpl in Ht. exists (EvDdgsOpen proxy :: evs).
    rewrite Ht, <- app_assoc. split; [done|].
    destruct (quiet_counts evs Hq) as [Ha Hs].
    change (EvDdgsOpen proxy :: evs) with ([EvDdgsOpen proxy] ++ evs).
    by rewrite attempts_app, sleeps_app, Ha, Hs.
  - intros [= <- <-]. by exists [EvDdgsOpen proxy].
Qed.

(** The loop from iteration [attempt] on, with [S todo] iterations left
    of which the last is number [retries]. *)
Lemma ddgs_attempts_spec retries backoff todo attempt sleep w r w' :
  attempt + Z.of_nat todo = retries →
  ddgs_attempts X proxy fn retries backoff (S todo) attempt sleep w = (r, w') →
  ∃ evs,
    trace w' = trace w ++ evs ∧
    (1 ≤ attempts evs ≤ S todo)%nat ∧
    sleeps evs = delays sleep backoff (attempts evs - 1) ∧
    r ≠ Ok None ∧
    (∀ e, r = Raise e → isinstance e DDGSException = true →
          attempts evs = S todo) ∧
    (attempts evs = S todo →
       ∃ w3 r3 w3', ddgs_session X proxy fn w3 = (r3, w3') ∧
         trace w3' = trace w' ∧
         r = match r3 with Ok a => Ok (Some a) | Raise e => Raise e end).
Proof.
  revert attempt sleep w. induction todo as [|todo IH]; intros attempt sleep w Hat.
  - cbn [ddgs_attempts]. unfold bind at 1, try_except, bind at 1.
    destruct (ddgs_session X proxy fn w) as [[a|e] w1] eqn:E;
      destruct (ddgs_session_trace _ _ _ E) as (evs & Ht & Ha & Hs).
    + intros [= <- <-]. exists evs. rewrite Ha, Hs.
      repeat split; try done; try lia. intros _. by exists w, (Ok a), w1.
    + destruct (isinstance e DDGSException) eqn:Hi.
      * unfold bind, log. cbn [environ trace logs].
        replace (attempt =? retries) with true by (symmetry; lia).
        intros [= <- <-]. exists evs. rewrite Ha, Hs. cbn [trace].
        repeat split; try done; try lia. intros _. by exists w, (Raise e), w1.
      * intros [= <- <-]. exists evs. rewrite Ha, Hs.
        repeat split; try done; try lia. intros _. by exists w, (Raise e), w1.
  - change (ddgs_attempts X proxy fn retries backoff (S (S todo)) attempt sleep)
      with (r <- try_except
                   (a <- ddgs_session X proxy fn ;; ret (Returned a))
                   DDGSException
                   (fun exc =>
                      log Warning "ddgs raised (try)" ;;;
                      if attempt =? retries then raise exc
                      else emit (EvSleep sleep) ;;; ret Fallthrough) ;;
            match r with
            | Returned a => ret (Some a)
            | Fallthrough =>
                ddgs_attempts X proxy fn retries backoff (S todo) (attempt + 1)
                  (PrimFloat.mul sleep backoff)
            end).
    unfold bind at 1, try_except, bind at 1.
    destruct (ddgs_session X proxy fn w) as [[a|e] w1] eqn:E;
      destruct (ddgs_session_trace _ _ _ E) as (evs & Ht & Ha & Hs).
    + intros [= <- <-]. exists evs. rewrite Ha, Hs.
      repeat split; try done; lia.
    + destruct (isinstance e DDGSException) eqn:Hi.
      * unfold bind at 1, log. cbn [environ trace logs].
        replace (attempt =? retries) with false by (symmetry; lia).
        unfold bind at 1, emit. cbn [environ trace logs ret].
        intros H.
        assert (attempt + 1 + Z.of_nat todo = retries) as Hat' by lia.
        destruct (IH _ _ _ Hat' H) as (evs' & Ht' & Ha' & Hs' & Hn & Hr & Hl).
        cbn [trace] in Ht'.
        exists (evs ++ [EvSleep sleep] ++ evs').
        rewrite !attempts_app, !sleeps_app, Ha, Hs.
        change (attempts [EvSleep sleep]) with 0%nat.
        change (sleeps [EvSleep sleep]) with [sleep].
        split; [by rewrite Ht', Ht, <- !app_assoc|].
        split; [lia|]. split.
        { simpl. rewrite Hs'.
          destruct (attempts evs') as [|k']; [lia|]. simpl.
          by rewrite Nat.sub_0_r. }
        split; [done|]. split.
        { intros e' He' Hi'. specialize (Hr e' He' Hi'). lia. }
        intros Hk. apply Hl. lia.
      * intros [= <- <-]. exists evs. rewrite Ha, Hs.
        repeat split; try done; try lia. intros e' [= ->]. congruence.
Qed.

End Retry.

(** Exporting the proxy makes no call and does not fail. *)
Lemma export_proxy_runs proxy w :
  ∃ w0, export_proxy proxy w = (Ok tt, w0) ∧ trace w0 = trace w.
Proof.
  unfold export_proxy. destruct (truthy_str proxy); [|by exists w].
  unfold bind, environ_setdefault.
  destruct (environ w !! "HTTP_PROXY") eqn:E1; cbn [environ];
    [destruct (environ w !! "HTTPS_PROXY") eqn:E2
    |destruct (<["HTTP_PROXY":=_]> (environ w) !! "HTTPS_PROXY") eqn:E2];
    by eexists.
Qed.

(** A variable that is absent is set to the proxy. *)
Lemma export_proxy_absent proxy w :
  truthy_str proxy = true →
  environ w !! "HTTP_PROXY" = None →
  environ (export_proxy proxy w).2 !! "HTTP_PROXY" = proxy.
Proof.
  intros Ht Hn. unfold export_proxy. rewrite Ht.
  unfold bind, environ_setdefault. rewrite Hn. cbn [environ].
  destruct proxy as [p|]; [|done]. cbn [default from_option].
  destruct (<["HTTP_PROXY":=_]> (environ w) !! "HTTPS_PROXY");
    cbn [snd environ].
  - apply lookup_insert_eq.
  - rewrite lookup_insert_ne by done. apply lookup_insert_eq.
Qed.

(** Before its loop [_with_ddgs] only exports the proxy. *)
Lemma with_ddgs_enters_loop (X : Externals) {A} proxy headers (fn : M A)
    retries backoff w :
  _with_ddgs X proxy headers fn retries backoff w =
  ddgs_attempts X (effective_proxy proxy w) fn retries backoff
    (Z.to_nat retries) 1 0.01%float
    (export_proxy (effective_proxy proxy w) w).2.
Proof.
  unfold _with_ddgs, effective_proxy, getenv.
  unfold bind at 1 2 3. cbn beta iota.
  destruct (export_proxy_runs
              (py_or (py_or proxy (environ w !! "HTTP_PROXY"))
                 (environ w !! "HTTPS_PROXY")) w) as (w0 & -> & _).
  done.
Qed.

(** ** Returned values *)

Lemma returns_ret {A} (Q : A → Prop) a : Q a → returns Q (ret a).
Proof. by intros HQ w a' w' [= <- <-]. Qed.

Lemma returns_raise {A} (Q : A → Prop) e : returns Q (raise e).
Proof. by intros w a' w'. Qed.

Lemma returns_bind {A B} (Q : B → Prop) (m : M A) (k : A → M B) :
  (∀ a, returns Q (k a)) → returns Q (bind m k).
Proof.
  intros Hk w b w'. unfold bind.
  destruct (m w) as [[a|e] w1]; [apply Hk|done].
Qed.

Lemma returns_bind_strong {A B} (P : A → Prop) (Q : B → Prop) (m : M A) k :
  returns P m → (∀ a, P a → returns Q (k a)) → returns Q (bind m k).
Proof.
  intros Hm Hk w b w'. unfold bind.
  destruct (m w) as [[a|e] w1] eqn:E; [|done].
  apply Hk. eapply Hm, E.
Qed.

Lemma returns_try_except {A} (Q : A → Prop) (m : M A) k h :
  returns Q m → (∀ e, returns Q (h e)) → returns Q (try_except m k h).
Proof.
  intros Hm Hh w a w'. unfold try_except.
  destruct (m w) as [[a0|e] w1] eqn:E.
  - intros [= <- <-]. eapply Hm, E.
  - destruct (isinstance e k); [apply Hh|done].
Qed.

Lemma returns_try_finally {A} (Q : A → Prop) (m : M A) f :
  returns Q m → returns Q (try_finally m f).
Proof.
  intros Hm w a w'. unfold try_finally.
  destruct (m w) as [r w1] eqn:E. destruct (f w1) as [[[]|e] w2]; [|done].
  intros [= -> <-]. eapply Hm, E.
Qed.

Lemma returns_mapM {A B} (f : A → M B) l :
  returns (Forall2 (yields f) l) (mapM f l).
Proof.
  induction l as [|x l IH]; simpl.
  - apply returns_ret. constructor.
  - intros w out w'. unfold bind at 1.
    destruct (f x w) as [[y|e] w1] eqn:E; [|done].
    unfold bind at 1.
    destruct (mapM f l w1) as [[ys|e] w2] eqn:E2; [|done].
    intros [= <- <-]. constructor; [by exists w, w1|]. eapply IH, E2.
Qed.

Lemma returns_weaken {A} (P Q : A → Prop) (m : M A) :
  (∀ a, P a → Q a) → returns P m → returns Q m.
Proof. intros HPQ Hm w a w' E. eapply HPQ, Hm, E. Qed.

Ltac rets_step :=
  first
    [ apply returns_raise
    | apply returns_bind
    | apply returns_try_except
    | apply returns_try_finally
    | match goal with
      | |- returns _ (if ?b then _ else _) => destruct b eqn:?
      | |- returns _ (match ?x with _ => _ end) => destruct x eqn:?
      end ].

Ltac rets := repeat (intros; rets_step).

(** ** Slices and enumerations *)

Lemma slice_to_length {A} (l : list A) k :
  0 ≤ k → Z.of_nat (length (slice_to l k)) ≤ k.
Proof.
  intros Hk. unfold slice_to. replace (0 <=? k) with true by (symmetry; lia).
  rewrite length_take. lia.
Qed.

Lemma enumerate_length {A} (l : list A) start :
  length (enumerate start l) = length l.
Proof. revert start. induction l as [|x l IH]; intros start; simpl; by rewrite ?IH. Qed.

Lemma count_from_lookup start n i :
  (i < n)%nat → count_from start n !! i = Some (Some (VInt (start + Z.of_nat i))).
Proof.
  revert start i. induction n as [|n IH]; intros start i Hi; [lia|].
  destruct i as [|i]; simpl.
  - do 3 f_equal. lia.
  - rewrite IH by lia. do 3 f_equal. lia.
Qed.

Lemma count_from_length start n : length (count_from start n) = n.
Proof. revert start. induction n as [|n IH]; intros start; simpl; by rewrite ?IH. Qed.

(** Entries built from an enumeration carry the enumeration's numbers. *)
Lemma ids_enumerate {A} (g : Z → A → Dict) (l : list A) start :
  (∀ i a, g i a !! "id" = Some (VInt i)) →
  ids ((λ '(i, a), g i a) <$> enumerate start l) = count_from start (length l).
Proof.
  intros Hg. revert start. induction l as [|x l IH]; intros start; [done|].
  unfold ids in *. cbn [enumerate length count_from fmap list_fmap map].
  f_equal; [apply Hg|]. apply IH.
Qed.

Lemma result_dict_id i title href body :
  result_dict i title href body !! "id" = Some (VInt i).
Proof. unfold result_dict. by rewrite lookup_insert_eq. Qed.

Lemma result_dict_body i title href body :
  result_dict i title href body !! "body" = Some (VStr body).
Proof.
  unfold result_dict.
  rewrite !lookup_insert_ne by done. by rewrite lookup_singleton_eq.
Qed.

(** ** What each tier can return *)

Section Outputs.

Variable X : Externals.

Lemma browser_entry_yields snips idx link y :
  yields (browser_entry X snips) (idx, link) y →
  ∃ title href body, y = result_dict (idx + 1) title href body.
Proof.
  intros (w & w' & H). unfold browser_entry, bind, getitem in H.
  destruct (el_attrs link !! "href") as [h|]; [|done].
  injection H as <- _. by eexists _, _, _.
Qed.

Lemma scrape_entry_yields i a y :
  yields scrape_entry (i, a) y →
  ∃ title href, y = result_dict i title href "".
Proof.
  intros (w & w' & H). unfold scrape_entry, bind, getitem in H.
  destruct (el_attrs a !! "href") as [h|]; [|done].
  injection H as <- _. by eexists _, _.
Qed.

Lemma browser_entries_ids snips l start out :
  Forall2 (yields (browser_entry X snips)) (enumerate start l) out →
  ids out = count_from (start + 1) (length l).
Proof.
  revert start out. induction l as [|x l IH]; intros start out H.
  - by inversion H.
  - cbn [enumerate] in H. inversion H as [|? y ? ys Hy Hys]; subst.
    apply browser_entry_yields in Hy as (t & h & b & ->).
    unfold ids in *. cbn [map length count_from].
    rewrite result_dict_id. f_equal. by apply IH.
Qed.

Lemma scrape_entries_ids l start out :
  Forall2 (yields scrape_entry) (enumerate start l) out →
  ids out = count_from start (length l) ∧
  Forall (λ d, d !! "body" = Some (VStr "")) out.
Proof.
  revert start out. induction l as [|x l IH]; intros start out H.
  - inversion H. by split.
  - cbn [enumerate] in H. inversion H as [|? y ? ys Hy Hys]; subst.
    apply scrape_entry_yields in Hy as (t & h & ->).
    destruct (IH _ _ Hys) as [Hi Hb].
    unfold ids in *. cbn [map length count_from]. split.
    + rewrite result_dict_id. by f_equal.
    + constructor; [apply result_dict_body|done].
Qed.

Lemma primp_tier_returns self q n :
  returns (λ r, ∀ out, r = Returned out →
                  out ≠ [] ∧ ∃ markup, out = primp_out X markup n)
    (primp_tier X self q n).
Proof.
  unfold primp_tier, primp_block.
  rets; intros; try (apply returns_ret; by intros).
  apply returns_ret. intros out [= <-]. split; [done|].
  match goal with H : primp_out X ?m n = _ |- _ => exists m; by rewrite H end.
Qed.

Lemma browser_search_returns q n proxy headers headless bypass timeout :
  returns (λ out, ∃ soup,
             Forall2
               (yields (browser_entry X
                  (slice_to (soup_select X soup "a.result__snippet")
                     INTERNAL_MAX_RETURN)))
               (enumerate 0
                  (slice_to (soup_select X soup "a.result__a")
                     INTERNAL_MAX_RETURN))
               out)
    (_browser_search X q n proxy headers headless bypass timeout).
Proof.
  unfold _browser_search. rets. intros w0.
  eapply returns_weaken; [|apply returns_mapM].
  intros out H. by exists (page_source X w0).
Qed.

Lemma requests_scrape_returns q n proxy headers timeout :
  returns (λ out, ∃ markup,
             Forall2 (yields scrape_entry)
               (enumerate 1 (slice_to (soup_select X markup "a.result__a") n))
               out)
    (_requests_scrape X q n proxy headers timeout).
Proof.
  unfold _requests_scrape. rets. intros _.
  eapply returns_weaken; [|apply returns_mapM].
  intros out H. by eexists.
Qed.

Lemma ddgs_attempts_returns {A} (Q : A → Prop) proxy (fn : M A)
    retries backoff todo attempt sleep :
  returns Q fn →
  returns (λ o, ∀ a, o = Some a → Q a)
    (ddgs_attempts X proxy fn retries backoff todo attempt sleep).
Proof.
  intros Hfn. revert attempt sleep.
  induction todo as [|todo IH]; intros attempt sleep; cbn [ddgs_attempts].
  - by apply returns_ret.
  - intros w o w'. unfold bind at 1, try_except, bind at 1, ddgs_session.
    unfold bind at 1.
    destruct (call _ _ w) as [[[]|e0] w0].
    + destruct (fn w0) as [[a|e] w1] eqn:E.
      * intros [= <- <-]. intros a' [= <-]. eapply Hfn, E.
      * destruct (isinstance e DDGSException); [|done].
        unfold bind at 1, log. destruct (attempt =? retries); [done|].
        unfold bind at 1, emit. cbn [ret]. apply IH.
    + destruct (isinstance e0 DDGSException); [|done].
      unfold bind at 1, log. destruct (attempt =? retries); [done|].
      unfold bind at 1, emit. cbn [ret]. apply IH.
Qed.

Lemma text_fn_returns self q n :
  returns (λ out, ∃ w0, ddgs_text X w0 q n (self_region self)
                          (self_safesearch self) (self_time self) = Ok out)
    (text_fn X self q n).
Proof.
  unfold text_fn, call, bind, emit. intros w out w'. cbn.
  destruct (ddgs_text X _ _ _ _ _ _) eqn:E; [|done].
  intros [= <- <-]. by eexists.
Qed.

Lemma ddgs_tier_returns self q n :
  returns (λ r, ∀ out, r = Returned (Some out) →
                  ∃ w0, ddgs_text X w0 q n (self_region self)
                          (self_safesearch self) (self_time self) = Ok out)
    (ddgs_tier X self q n).
Proof.
  unfold ddgs_tier. apply returns_try_except.
  - eapply returns_bind_strong.
    + unfold _with_ddgs. do 3 (apply returns_bind; intros).
      apply ddgs_attempts_returns, text_fn_returns.
    + intros o Ho. apply returns_ret. intros out [= ->]. by apply Ho.
  - intros e. rets. intros _. by apply returns_ret.
Qed.

End Outputs.

(** ** Handlers, calls and the steps of the browser tier *)

Lemma try_except_Exception_no_Exception {A} (m : M A) (h : PyExc → M A) :
  (∀ e w, ∃ a w', h e w = (Ok a, w')) →
  no_Exception (try_except m PyException h).
Proof.
  intros Hh w e w'. unfold try_except.
  destruct (m w) as [[a|e0] w1]; [done|].
  destruct (isinstance e0 PyException) eqn:Hi.
  - destruct (Hh e0 w1) as (a & w2 & ->). done.
  - by intros [= <- <-].
Qed.



Lemma call_bind {A B} e (oracle : World → Res A) (k : A → M B) w :
  bind (call e oracle) k w =
  match oracle (mkWorld (environ w) (trace w ++ [e]) (logs w)) with
  | Ok a => k a (mkWorld (environ w) (trace w ++ [e]) (logs w))
  | Raise x => (Raise x, mkWorld (environ w) (trace w ++ [e]) (logs w))
  end.
Proof.
  unfold call, bind, emit. cbv beta iota. by destruct (oracle _).
Qed.

Lemma call_run {A} e (oracle : World → Res A) w :
  call e oracle w =
  (oracle (mkWorld (environ w) (trace w ++ [e]) (logs w)),
   mkWorld (environ w) (trace w ++ [e]) (logs w)).
Proof. reflexivity. Qed.


Lemma clear_proxy_env_restore bypass w saved :
  (clear_proxy_env bypass w).1 = Ok saved →
  saved ∪ environ (clear_proxy_env bypass w).2 = environ w.
Proof.
  unfold clear_proxy_env. cbn [fst snd environ]. intros H.
  destruct bypass.
  - assert (saved = (foldl pop_var (∅, environ w) ["HTTP_PROXY"; "HTTPS_PROXY"]).1)
      as -> by congruence.
    rewrite foldl_pop_var_restore by apply map_disjoint_empty_l.
    apply (left_id_L ∅ (∪)).
  - assert (saved = ∅) as -> by (cbn [fst] in H; congruence).
    apply (left_id_L ∅ (∪)).
Qed.

(** [_new_driver] in terms of what the constructor answers. *)
Lemma new_driver_unfold (X : Externals) proxy headers headless bypass w :
  _new_driver X proxy headers headless bypass w =
  match webdriver_Chrome X
          (mkWorld (environ (clear_proxy_env bypass w).2)
             (trace w ++ [EvDriverNew (driver_options proxy headless)])
             (logs w)) with
  | Ok _ =>
      inject_headers X headers
        (mkWorld (environ w)
           (trace w ++ [EvDriverNew (driver_options proxy headless)]) (logs w))
  | Raise e =>
      (Raise e,
       mkWorld (environ w)
         (trace w ++ [EvDriverNew (driver_options proxy headless)]) (logs w))
  end.
Proof.
  pose proof (clear_proxy_env_restore bypass w) as Hres.
  unfold _new_driver, bind at 1.
  destruct (clear_proxy_env bypass w) as [[saved|e0] w1] eqn:Ec.
  2:{ unfold clear_proxy_env in Ec. discriminate. }
  assert (trace w1 = trace w ∧ logs w1 = logs w) as [Ht Hl].
  { unfold clear_proxy_env in Ec. by injection Ec as _ <-. }
  specialize (Hres saved eq_refl). cbn [snd] in *.
  unfold bind at 1, try_finally. rewrite call_run. rewrite Ht, Hl.
  unfold environ_update. cbn [environ trace logs]. rewrite Hres.
  by destruct (webdriver_Chrome X _) as [[]|e].
Qed.

Lemma browser_search_unfold (X : Externals) q n proxy headers headless bypass
    timeout :
  _browser_search X q n proxy headers headless bypass timeout =
  (log Stdout "In _browser_search" ;;;
   _new_driver X proxy headers headless bypass ;;;
   try_finally (browser_render X q timeout) (browser_cleanup X)).
Proof. reflexivity. Qed.

Lemma browser_cleanup_run (X : Externals) w :
  let wq := mkWorld (environ w)
              (trace w ++ [EvSleep (random_uniform X w); EvDriverQuit]) (logs w) in
  browser_cleanup X w =
  match driver_quit X wq with
  | Ok _ => (Ok tt, wq)
  | Raise e => if isinstance e PyException then (Ok tt, wq) else (Raise e, wq)
  end.
Proof.
  intros wq. unfold browser_cleanup, bind at 1, get_world.
  unfold bind at 1, emit. cbn [environ trace logs].
  unfold suppress, try_except. rewrite call_run. cbn [environ trace logs].
  rewrite <- app_assoc. cbn [app]. fold wq.
  by destruct (driver_quit X wq) as [[]|e].
Qed.

(** ** Exceptions raised inside a tier *)







Lemma ddgs_session_run (X : Externals) {A} proxy (fn : M A) w :
  ddgs_session X proxy fn w =
  match ddgs_open X (at_call (EvDdgsOpen proxy) w) with
  | Ok _ => fn (at_call (EvDdgsOpen proxy) w)
  | Raise e => (Raise e, at_call (EvDdgsOpen proxy) w)
  end.
Proof. unfold ddgs_session. by rewrite call_bind. Qed.

(** One iteration of the loop of [_with_ddgs], by the outcome of its
    session. *)
Lemma ddgs_attempts_step (X : Externals) {A} proxy (fn : M A) retries backoff
    todo attempt sleep w :
  ddgs_attempts X proxy fn retries backoff (S todo) attempt sleep w =
  match ddgs_session X proxy fn w with
  | (Ok a, w1) => (Ok (Some a), w1)
  | (Raise e, w1) =>
      if isinstance e DDGSException then
        if attempt =? retries
        then (Raise e, mkWorld (environ w1) (trace w1)
                         (logs w1 ++ [(Warning, "ddgs raised (try)")]))
        else ddgs_attempts X proxy fn retries backoff todo (attempt + 1)
               (PrimFloat.mul sleep backoff) (after_retry sleep w1)
      else (Raise e, w1)
  end.
Proof.
  cbn [ddgs_attempts]. unfold bind at 1, try_except, bind at 1.
  destruct (ddgs_session X proxy fn w) as [[a|e] w1]; [done|].
  destruct (isinstance e DDGSException); [|done].
  unfold bind at 1, log. destruct (attempt =? retries); [done|].
  unfold bind at 1, emit. done.
Qed.


Lemma requests_scrape_run (X : Externals) q n proxy headers timeout w :
  _requests_scrape X q n proxy headers timeout w =
  match requests_post X (at_call (scrape_post X q) w) with
  | Raise e => (Raise e, at_call (scrape_post X q) w)
  | Ok resp =>
      match raise_for_status X resp with
      | Raise e => (Raise e, at_call (scrape_post X q) w)
      | Ok _ =>
          mapM scrape_entry
            (enumerate 1 (slice_to (soup_select X (text resp) "a.result__a") n))
            (at_call (scrape_post X q) w)
      end
  end.
Proof.
  unfold _requests_scrape. rewrite call_bind.
  change (mkWorld (environ w) (trace w ++ [EvPost _ _]) (logs w))
    with (at_call (scrape_post X q) w).
  destruct (requests_post X _) as [resp|e]; [|done].
  unfold bind at 1. by destruct (raise_for_status X resp) as [[]|e].
Qed.


(** ** The engine client as line 18 binds it *)

(** [_with_ddgs] with [ddgs] bound to the module: the first
    [ddgs(...)] raises TypeError, which is no DDGSException, so the call
    ends there, whatever the callback and the budget. *)
Lemma with_ddgs_as_imported (X : Externals) {A} proxy headers (fn : M A)
    retries backoff w :
  0 < retries →
  _with_ddgs (as_imported X) proxy headers fn retries backoff w =
  (Raise module_not_callable,
   at_call (EvDdgsOpen (effective_proxy proxy w))
     (export_proxy (effective_proxy proxy w) w).2).
Proof.
  intros Hr. rewrite with_ddgs_enters_loop.
  destruct (Z.to_nat retries) as [|todo] eqn:E; [lia|].
  rewrite ddgs_attempts_step, ddgs_session_run. done.
Qed.

Lemma ddgs_tier_as_imported (X : Externals) self q n w :
  (ddgs_tier (as_imported X) self q n w).1 = Raise module_not_callable.
Proof.
  unfold ddgs_tier, try_except, bind at 1.
  by rewrite with_ddgs_as_imported.
Qed.

(** What a tier returned, in terms of the function behind it. *)
Lemma run_tier_returned (X : Externals) self q n t w out w' :
  run_tier X self q n t w = (Ok (Returned (Some out)), w') →
  match t with
  | TierPrimp => primp_tier X self q n w = (Ok (Returned out), w')
  | TierBrowser =>
      self_use_browser self = true ∧
      _browser_search X q n (self_proxy self) (self_headers self)
        (self_headless self) (self_bypass_proxy_for_driver self) 15 w
      = (Ok out, w')
  | TierDdgs => ddgs_tier X self q n w = (Ok (Returned (Some out)), w')
  | TierScrape => scrape_tier X self q n w = (Ok out, w')
  end.
Proof.
  destruct t; cbn [run_tier].
  - unfold bind. destruct (primp_tier X self q n w) as [[[o|]|e] w1]; try done.
    unfold ret. congruence.
  - unfold bind at 1, browser_tier.
    destruct (self_use_browser self); [|done].
    unfold try_except, bind at 1.
    destruct (_browser_search X q n _ _ _ _ 15 w) as [[o|e] w1].
    + unfold ret. intros [= -> ->]. done.
    + destruct (isinstance e WebDriverException); [|done].
      unfold bind, log, ret. done.
  - done.
  - unfold bind. destruct (scrape_tier X self q n w) as [[o|e] w1]; [|done].
    unfold ret. congruence.
Qed.

(** A list returned by a text search was returned by tier 0, by the
    browser tier or by the scrape: [ddgs] being the module, the
    engine-client tier returns none. *)
Lemma search_text_as_imported_source (X : Externals) self q n w out w' :
  _search_text (as_imported X) self q n w = (Ok (Some out), w') →
  (∃ w0, primp_tier (as_imported X) self q n w0 = (Ok (Returned out), w')) ∨
  (self_use_browser self = true ∧
   ∃ w0, _browser_search (as_imported X) q n (self_proxy self)
           (self_headers self) (self_headless self)
           (self_bypass_proxy_for_driver self) 15 w0 = (Ok out, w')) ∨
  (∃ w0, scrape_tier (as_imported X) self q n w0 = (Ok out, w')).
Proof.
  intros H. destruct (search_text_cascade _ _ _ _ _ _ _ H) as [ts Hc].
  destruct (cascade_source _ _ _ _ _ _ Hc) as (t & w0 & _ & Hr).
  apply run_tier_returned in Hr. destruct t.
  - left. by exists w0.
  - right. left. destruct Hr. split; [done|]. by exists w0.
  - pose proof (ddgs_tier_as_imported X self q n w0) as Hd.
    rewrite Hr in Hd. discriminate Hd.
  - right. right. by exists w0.
Qed.

Lemma primp_tier_length (X : Externals) self q n w out w' :
  0 < n →
  primp_tier X self q n w = (Ok (Returned out), w') →
  Z.of_nat (length out) ≤ n.
Proof.
  intros Hn H.
  destruct (primp_tier_returns X self q n _ _ _ H out eq_refl)
    as (_ & markup & ->).
  unfold primp_out. rewrite length_map, enumerate_length.
  unfold primp_limit. replace (n =? 0) with false by (symmetry; lia).
  apply slice_to_length. lia.
Qed.

Lemma scrape_tier_length (X : Externals) self q n w out w' :
  0 ≤ n →
  scrape_tier X self q n w = (Ok out, w') →
  Z.of_nat (length out) ≤ n.
Proof.
  intros Hn H. unfold scrape_tier in H.
  destruct (requests_scrape_returns X q n _ _ _ _ _ _ H) as (markup & HF).
  apply Forall2_length in HF. rewrite <- HF, enumerate_length.
  by apply slice_to_length.
Qed.

Lemma browser_search_length (X : Externals) q n proxy headers headless bypass
    timeout w out w' :
  _browser_search X q n proxy headers headless bypass timeout w = (Ok out, w') →
  Z.of_nat (length out) ≤ INTERNAL_MAX_RETURN.
Proof.
  intros H.
  destruct (browser_search_returns X q n _ _ _ _ _ _ _ _ H) as (soup & HF).
  apply Forall2_length in HF. rewrite <- HF, enumerate_length.
  by apply slice_to_length.
Qed.

Lemma primp_tier_ids (X : Externals) self q n w out w' :
  primp_tier X self q n w = (Ok (Returned out), w') →
  ids out = one_to (length out).
Proof.
  intros H.
  destruct (primp_tier_returns X self q n _ _ _ H out eq_refl)
    as (_ & markup & ->).
  unfold primp_out.
  rewrite (ids_enumerate
             (λ i a, result_dict i (el_text a) (get_attr a "href" "") _)).
  - by rewrite length_map, enumerate_length.
  - intros. apply result_dict_id.
Qed.

Lemma browser_search_ids (X : Externals) q n proxy headers headless bypass
    timeout w out w' :
  _browser_search X q n proxy headers headless bypass timeout w = (Ok out, w') →
  ids out = one_to (length out).
Proof.
  intros H.
  destruct (browser_search_returns X q n _ _ _ _ _ _ _ _ H) as (soup & HF).
  rewrite (browser_entries_ids X _ _ _ _ HF).
  apply Forall2_length in HF. by rewrite <- HF, enumerate_length.
Qed.

Lemma scrape_tier_ids (X : Externals) self q n w out w' :
  scrape_tier X self q n w = (Ok out, w') →
  ids out = one_to (length out).
Proof.
  intros H. unfold scrape_tier in H.
  destruct (requests_scrape_returns X q n _ _ _ _ _ _ H) as (markup & HF).
  destruct (scrape_entries_ids _ _ _ HF) as [-> _].
  apply Forall2_length in HF. by rewrite <- HF, enumerate_length.
Qed.

Lemma mapM_scrape_entry_returns l start w :
  forallb has_href l = true →
  mapM scrape_entry (enumerate start l) w =
  (Ok (map (λ '(i, a), result_dict i (el_text a) (get_attr a "href" "") "")
         (enumerate start l)), w).
Proof.
  revert start. induction l as [|a l IH]; intros start; [done|].
  cbn [forallb enumerate mapM map]. unfold has_href at 1.
  unfold bind at 1, scrape_entry, bind at 1, getitem, get_attr.
  destruct (el_attrs a !! "href") as [v|] eqn:E.
  - rewrite bool_decide_eq_true_2 by done. cbn [andb]. intros H.
    cbn [ret]. unfold bind at 1. rewrite IH by done. done.
  - rewrite bool_decide_eq_false_2; [done|]. by intros [? ?].
Qed.


(** * The claims *)

(** C1: every text search tries the tiers in one fixed order, the
    impersonated-HTTP client first, the real browser only when
    [use_browser] is set, then the engine client, then the plain scrape.
    The tiers that made calls are a non-empty initial part of that order;
    every tier before the last one tried ran off its end; a returned list
    is exactly the value the last tier tried returned, and the final world
    is the one that tier left, so nothing is merged and nothing runs
    afterwards. *)
Theorem search_text_tier_order (X : Externals) self q n w :
  let r := (_search_text X self q n w).1 in
  let w' := (_search_text X self q n w).2 in
  let evs := drop (length (trace w)) (trace w') in
  let ts := tiers_attempted evs in
  tier_order self =
    (if self_use_browser self
     then [TierPrimp; TierBrowser; TierDdgs; TierScrape]
     else [TierPrimp; TierDdgs; TierScrape]) ∧
  trace w' = trace w ++ evs ∧
  ts ≠ [] ∧ ts `prefix_of` tier_order self ∧
  cascade (run_tier X self q n) (tier_order self) w r w' ts ∧
  (∀ out, r = Ok out →
     ∃ t wpre, last ts = Some t ∧
       run_tier X self q n t wpre = (Ok (Returned out), w')) ∧
  (∀ t, t ∈ removelast ts →
     ∃ wa wb, run_tier X self q n t wa = (Ok Fallthrough, wb)).
Proof.
  intros r w' evs ts.
  destruct (_search_text X self q n w) as [r0 w0] eqn:E.
  destruct (search_text_cascade X self q n w r0 w0 E) as [ts0 Hc].
  destruct (cascade_trace _ _ _ _ _ _
              (run_tier_begins X self q n) (tier_order_NoDup self) Hc)
    as (Hne & Hpre & evs0 & Htr & Hts).
  assert (evs = evs0) as ->.
  { subst evs w'. cbn [snd]. rewrite Htr. apply drop_app_length. }
  subst ts r w'. cbn [fst snd]. rewrite Hts.
  split; [by unfold tier_order; destruct (self_use_browser self)|].
  repeat split; try done.
  - intros out ->. by apply (cascade_source _ _ _ _ _ _ Hc).
  - intros t Hin. by apply (cascade_earlier _ _ _ _ _ _ _ Hc).
Qed.

(** Scenario B: with the browser off, tiers 2 and 4 failing and two
    anchors on the scraped page, the list returned is the scrape's. *)
Lemma search_text_tier_order_witness :
  ∃ t wpre,
    last (tiers_attempted
            (drop (length (trace empty_world))
               (trace (_search_text world_scrape_only plain_wrapper
                         "rust ownership" 5 empty_world).2))) = Some t ∧
    run_tier world_scrape_only plain_wrapper "rust ownership" 5 t wpre =
      (Ok (Returned
             (Some [result_dict 1 "The Rust Book"
                      "https://doc.rust-lang.org/book/" "";
                    result_dict 2 "Ownership"
                      "https://example.org/ownership" ""])),
       (_search_text world_scrape_only plain_wrapper
          "rust ownership" 5 empty_world).2).
Proof.
  apply (search_text_tier_order world_scrape_only plain_wrapper
           "rust ownership" 5 empty_world).
  vm_compute. reflexivity.
Defined.




(** C3: with its default arguments [_with_ddgs] opens at most three
    sessions.  It sleeps only between sessions, first for 0.01 and then
    for 0.01 * 1.5, so the delays strictly increase.  A DDGSException
    leaves it only after the third session, and it is then the
    exception that session raised, with no sleep after it.  A value is
    always returned or an exception raised. *)
Theorem with_ddgs_retry_bound (X : Externals) self q n proxy headers w :
  let run := _with_ddgs X proxy headers (text_fn X self q n)
               default_retries default_backoff w in
  let evs := drop (length (trace w)) (trace run.2) in
  trace run.2 = trace w ++ evs ∧
  (1 ≤ attempts evs ≤ 3)%nat ∧
  sleeps evs =
    take (attempts evs - 1) [0.01%float; PrimFloat.mul 0.01%float 1.5%float] ∧
  PrimFloat.ltb 0.01%float (PrimFloat.mul 0.01%float 1.5%float) = true ∧
  run.1 ≠ Ok None ∧
  (∀ e, run.1 = Raise e → isinstance e DDGSException = true →
        attempts evs = 3%nat) ∧
  (attempts evs = 3%nat →
     ∃ w3 r3 w3',
       ddgs_session X (effective_proxy proxy w) (text_fn X self q n) w3
         = (r3, w3') ∧
       trace w3' = trace run.2 ∧
       run.1 = match r3 with Ok a => Ok (Some a) | Raise e => Raise e end).
Proof.
  intros run evs.
  pose proof (with_ddgs_enters_loop X proxy headers (text_fn X self q n)
                default_retries default_backoff w) as Hrun.
  destruct (export_proxy_runs (effective_proxy proxy w) w) as (w0 & Hex & Hw0).
  rewrite Hex in Hrun. cbn [snd] in Hrun.
  fold run in Hrun. change (Z.to_nat default_retries) with 3%nat in Hrun.
  destruct run as [r w'] eqn:E. symmetry in Hrun.
  assert (preserves (grows quiet) (text_fn X self q n)) as Hq.
  { unfold text_fn. pres. apply grows_emit. exact I. }
  destruct (ddgs_attempts_spec X _ _ Hq default_retries default_backoff
              2 1 _ w0 r w' eq_refl Hrun)
    as (evs0 & Ht & Ha & Hs & Hn & Hr & Hl).
  rewrite Hw0 in Ht.
  assert (evs = evs0) as ->.
  { subst evs. cbn [snd]. rewrite Ht. apply drop_app_length. }
  cbn [fst snd]. split; [done|]. split; [lia|]. split.
  { rewrite Hs. destruct (attempts evs0) as [|[|[|[|k]]]]; try done; lia. }
  split; [by vm_compute|]. by repeat split.
Qed.

(** With the engine always rate-limited, the third session's exception
    is the one raised, after exactly three sessions. *)
Lemma with_ddgs_retry_bound_witness :
  attempts
    (drop (length (trace empty_world))
       (trace (_with_ddgs world_all_down None None
                 (text_fn world_all_down plain_wrapper "rust ownership" 5)
                 default_retries default_backoff empty_world).2)) = 3%nat.
Proof.
  eapply (with_ddgs_retry_bound world_all_down plain_wrapper
            "rust ownership" 5 None None empty_world);
    vm_compute; reflexivity.
Defined.

(** C4: for [max_results = n > 0], tier 0 and the scrape return at most
    [n] entries; the browser tier returns at most [INTERNAL_MAX_RETURN]
    = 10 entries and its behaviour does not depend on [n] at all.  The
    engine-client tier returns no list: [ddgs] is the module (line 18),
    so [ddgs(...)] on line 71 raises TypeError.  Hence a list returned
    by a text search has at most [n] entries, or at most 10 when it
    comes from the browser. *)
Theorem tiers_respect_cap (X : Externals) self q n :
  0 < n →
  (∀ w out w', primp_tier X self q n w = (Ok (Returned out), w') →
               Z.of_nat (length out) ≤ n) ∧
  (∀ w out w', scrape_tier X self q n w = (Ok out, w') →
               Z.of_nat (length out) ≤ n) ∧
  (∀ proxy headers headless bypass timeout w out w',
     _browser_search X q n proxy headers headless bypass timeout w = (Ok out, w') →
     Z.of_nat (length out) ≤ INTERNAL_MAX_RETURN) ∧
  (∀ n' proxy headers headless bypass timeout,
     _browser_search X q n' proxy headers headless bypass timeout =
     _browser_search X q n proxy headers headless bypass timeout) ∧
  INTERNAL_MAX_RETURN = 10 ∧
  (∀ w, (ddgs_tier (as_imported X) self q n w).1 = Raise module_not_callable) ∧
  (∀ w out w',
     _search_text (as_imported X) self q n w = (Ok (Some out), w') →
     Z.of_nat (length out) ≤ n ∨
     (self_use_browser self = true ∧
      Z.of_nat (length out) ≤ INTERNAL_MAX_RETURN)).
Proof.
  intros Hn. split; [|split; [|split; [|split; [|split; [|split]]]]].
  - intros w out w'. by apply primp_tier_length.
  - intros w out w'. apply scrape_tier_length. lia.
  - intros proxy headers headless bypass timeout w out w'.
    apply browser_search_length.
  - done.
  - done.
  - apply ddgs_tier_as_imported.
  - intros w out w' H.
    destruct (search_text_as_imported_source X self q n w out w' H)
      as [[w0 H0]|[[Hb [w0 H0]]|[w0 H0]]].
    + left. by eapply primp_tier_length.
    + right. split; [done|]. by eapply browser_search_length.
    + left. eapply scrape_tier_length; [lia|done].
Qed.

(** Two results are asked for on a page of twelve anchors: tier 0
    returns two. *)
Lemma tiers_respect_cap_witness :
  Z.of_nat (length (primp_out world_twelve "<html>" 2)) ≤ 2.
Proof.
  refine (proj1 (tiers_respect_cap (as_imported world_twelve) plain_wrapper
                   "rust ownership" 2 _) empty_world
            (primp_out world_twelve "<html>" 2)
            (primp_tier (as_imported world_twelve) plain_wrapper
               "rust ownership" 2 empty_world).2 _).
  - lia.
  - vm_compute. reflexivity.
Defined.

(** C5: the lists built in tier 0, in the browser tier and in the scrape
    carry the ids 1, 2, ..., L in order.  The engine-client tier returns
    no list: [ddgs] is the module (line 18), so [ddgs(...)] on line 71
    raises TypeError.  Hence every list a text search returns carries
    the ids 1, 2, ..., L in order. *)
Theorem result_ids_are_contiguous (X : Externals) self q n :
  (∀ w out w', primp_tier X self q n w = (Ok (Returned out), w') →
               ids out = one_to (length out)) ∧
  (∀ proxy headers headless bypass timeout w out w',
     _browser_search X q n proxy headers headless bypass timeout w = (Ok out, w') →
     ids out = one_to (length out)) ∧
  (∀ w out w', scrape_tier X self q n w = (Ok out, w') →
               ids out = one_to (length out)) ∧
  (∀ w, (ddgs_tier (as_imported X) self q n w).1 = Raise module_not_callable) ∧
  (∀ w out w',
     _search_text (as_imported X) self q n w = (Ok (Some out), w') →
     ids out = one_to (length out)) ∧
  (∀ L i, (i < L)%nat → one_to L !! i = Some (Some (VInt (Z.of_nat i + 1)))).
Proof.
  split; [|split; [|split; [|split; [|split]]]].
  - intros w out w'. apply primp_tier_ids.
  - intros proxy headers headless bypass timeout w out w'.
    apply browser_search_ids.
  - intros w out w'. apply scrape_tier_ids.
  - apply ddgs_tier_as_imported.
  - intros w out w' H.
    destruct (search_text_as_imported_source X self q n w out w' H)
      as [[w0 H0]|[[Hb [w0 H0]]|[w0 H0]]].
    + by eapply primp_tier_ids.
    + by eapply browser_search_ids.
    + by eapply scrape_tier_ids.
  - intros L i Hi. unfold one_to. rewrite count_from_lookup by done.
    do 3 f_equal. lia.
Qed.

(** The browser renders two anchors: the search returns them numbered
    1, 2. *)
Lemma result_ids_are_contiguous_witness :
  ids rendered_two = one_to (length rendered_two).
Proof.
  refine (proj1 (proj2 (proj2 (proj2 (proj2
            (result_ids_are_contiguous world_sloppy_browser header_wrapper
               "rust ownership" 5))))) empty_world rendered_two
            (_search_text (as_imported world_sloppy_browser) header_wrapper
               "rust ownership" 5 empty_world).2 _).
  vm_compute. reflexivity.
Defined.

(** C6: with [bypass_proxy_for_driver] set, a proxy variable that was set
    before the browser tier runs has its original value again afterwards,
    whether the driver constructor returned or raised; while the
    constructor runs the variable is absent.  This holds after
    [_new_driver] and after the whole of [_browser_search]. *)
Theorem driver_proxy_env_restored (X : Externals) q n proxy headers headless
    timeout w var v :
  var = "HTTP_PROXY" ∨ var = "HTTPS_PROXY" →
  environ w !! var = Some v →
  environ (clear_proxy_env true w).2 !! var = None ∧
  environ (_new_driver X proxy headers headless true w).2 !! var = Some v ∧
  environ (_browser_search X q n proxy headers headless true timeout w).2
    !! var = Some v.
Proof.
  intros Hvar Hv. split; [|split].
  - unfold clear_proxy_env. cbn [snd environ foldl].
    destruct Hvar as [-> | ->].
    + unfold pop_var at 2. rewrite Hv. unfold pop_var.
      rewrite lookup_delete_ne by done.
      destruct (environ w !! "HTTPS_PROXY"); cbn [snd].
      * rewrite lookup_delete_ne by done. apply lookup_delete_eq.
      * apply lookup_delete_eq.
    + apply pop_var_absent.
  - destruct (_new_driver X proxy headers headless true w) as [r w'] eqn:E.
    apply new_driver_same_environ in E. cbn [snd]. by rewrite E.
  - destruct (_browser_search X q n proxy headers headless true timeout w)
      as [r w'] eqn:E.
    apply browser_search_same_environ in E. cbn [snd]. by rewrite E.
Qed.

(** The driver cannot be started: [HTTP_PROXY] is back all the same. *)
Lemma driver_proxy_env_restored_witness :
  (_new_driver world_no_driver None None true true proxied_world).1
    = Raise (mkExc WebDriverException "session not created") ∧
  environ (_new_driver world_no_driver None None true true proxied_world).2
    !! "HTTP_PROXY" = Some "http://corp:3128".
Proof.
  split; [vm_compute; reflexivity|].
  apply (driver_proxy_env_restored world_no_driver "rust ownership" 5
           None None true 15 proxied_world "HTTP_PROXY" "http://corp:3128").
  - by left.
  - vm_compute. reflexivity.
Defined.

(** C7: [_with_ddgs] exports the proxy with set-if-absent semantics.  A
    variable, [HTTP_PROXY] and [HTTPS_PROXY] in particular, that is set
    when the call starts has the same value when the call ends, whatever
    proxy was passed and however the sessions went; an absent
    [HTTP_PROXY] receives the proxy in force, when there is one. *)
Theorem with_ddgs_keeps_proxy_env (X : Externals) self q n proxy headers
    retries backoff w var v :
  environ w !! var = Some v →
  environ (_with_ddgs X proxy headers (text_fn X self q n) retries backoff w).2
    !! var = Some v ∧
  (∀ w0, environ w0 !! "HTTP_PROXY" = None →
         truthy_str (effective_proxy proxy w0) = true →
         environ (_with_ddgs X proxy headers (text_fn X self q n)
                    retries backoff w0).2 !! "HTTP_PROXY"
         = effective_proxy proxy w0).
Proof.
  intros Hv. split.
  - destruct (_with_ddgs _ _ _ _ _ _ w) as [r w'] eqn:E.
    apply (with_ddgs_keeps_var X var) in E; [by apply E|].
    apply text_fn_same_environ.
  - intros w0 Hn Ht. rewrite with_ddgs_enters_loop.
    destruct (ddgs_attempts _ _ _ _ _ _ _ _ _) as [r w'] eqn:E.
    apply (ddgs_attempts_preserves X same_environ) in E;
      [|apply text_fn_same_environ|pres..].
    cbn [snd]. rewrite E. by apply export_proxy_absent.
Qed.

(** A proxy is passed while [HTTP_PROXY] already holds another one: the
    variable is not overwritten. *)
Lemma with_ddgs_keeps_proxy_env_witness :
  environ (_with_ddgs world_ddgs_answers (Some "http://other:8080") None
             (text_fn world_ddgs_answers plain_wrapper "rust ownership" 5)
             default_retries default_backoff proxied_world).2
    !! "HTTP_PROXY" = Some "http://corp:3128".
Proof.
  apply (with_ddgs_keeps_proxy_env world_ddgs_answers plain_wrapper
           "rust ownership" 5 (Some "http://other:8080") None
           default_retries default_backoff proxied_world "HTTP_PROXY").
  vm_compute. reflexivity.
Defined.

(** C8, as stated, fails: the answer 304 is not a 2xx status, and the
    scrape does not raise; it parses the page and returns the two
    entries. *)
Lemma scrape_parses_not_modified :
  ¬ (∀ (X : Externals) q n proxy headers timeout w resp,
       requests_post X (at_call (scrape_post X q) w) = Ok resp →
       ¬ (200 ≤ status_code resp < 300) →
       ∃ e, (_requests_scrape (with_requests X) q n proxy headers timeout w).1
            = Raise e) ∧
  requests_post world_not_modified
    (at_call (scrape_post world_not_modified "rust ownership") empty_world)
    = Ok (mkResponse 304 "<html>") ∧
  _requests_scrape (with_requests world_not_modified) "rust ownership" 5
    None None 10 empty_world
    = (Ok scraped_two,
       mkWorld ∅ [EvPost "https://html.duckduckgo.com/html" "q=rust ownership"]
         []).
Proof.
  split; [|split; [reflexivity|vm_compute; reflexivity]].
  intros H.
  destruct (H world_not_modified "rust ownership" 5 None None 10 empty_world
              (mkResponse 304 "<html>") eq_refl) as [e He].
  - cbn [status_code]. lia.
  - assert ((_requests_scrape (with_requests world_not_modified)
               "rust ownership" 5 None None 10 empty_world).1 = Ok scraped_two)
      as Hrun by (vm_compute; reflexivity).
    rewrite Hrun in He. discriminate He.
Qed.

(** C8, amended: the scrape posts the form-encoded query once and makes
    no other call, whatever happens.  An exception of the POST leaves
    it.  [raise_for_status] being requests' method, an answer with a
    status from 400 to 599 makes it raise HTTPError; any other status,
    1xx and 3xx included, is parsed like a 2xx one: the list of the
    first [max_results] anchors is returned when each has an [href].
    A returned list has at most [max_results] entries and every [body]
    is the empty string.  Reached by the dispatcher after the other
    tiers fell through, its outcome, exception included, is the
    dispatcher's. *)
Theorem requests_scrape_fast_fail (X : Externals) self q n w :
  0 ≤ n →
  let posted := at_call (scrape_post X q) w in
  let run := scrape_tier (with_requests X) self q n w in
  let anchors resp := slice_to (soup_select X (text resp) "a.result__a") n in
  trace run.2 = trace w ++ [scrape_post X q] ∧
  (∀ e, requests_post X posted = Raise e → run = (Raise e, posted)) ∧
  (∀ resp, requests_post X posted = Ok resp →
           400 ≤ status_code resp < 600 →
           run = (Raise (mkExc HTTPError "status"), posted)) ∧
  (∀ resp, requests_post X posted = Ok resp →
           ¬ (400 ≤ status_code resp < 600) →
           run = mapM scrape_entry (enumerate 1 (anchors resp)) posted ∧
           (forallb has_href (anchors resp) = true →
            run = (Ok (map (λ '(i, a), result_dict i (el_text a)
                                         (get_attr a "href" "") "")
                         (enumerate 1 (anchors resp))), posted))) ∧
  (∀ out, run.1 = Ok out →
          Z.of_nat (length out) ≤ n ∧
          Forall (λ d, d !! "body" = Some (VStr "")) out) ∧
  (∀ w0 w1 w2,
     primp_tier (with_requests X) self q n w0 = (Ok Fallthrough, w1) →
     browser_tier (with_requests X) self q n w1 = (Ok Fallthrough, w2) →
     ddgs_tier (with_requests X) self q n (log_done w2) = (Ok Fallthrough, w) →
     _search_text (with_requests X) self q n w0 =
       (match run.1 with Ok out => Ok (Some out) | Raise e => Raise e end,
        run.2)).
Proof.
  intros Hn posted run anchors.
  assert (run =
          match requests_post X posted with
          | Raise e => (Raise e, posted)
          | Ok resp =>
              match requests_raise_for_status resp with
              | Raise e => (Raise e, posted)
              | Ok _ => mapM scrape_entry (enumerate 1 (anchors resp)) posted
              end
          end) as Hrun.
  { subst run. unfold scrape_tier. by rewrite requests_scrape_run. }
  split; [|split; [|split; [|split; [|split]]]].
  - rewrite Hrun. destruct (requests_post X posted) as [resp|e]; [|done].
    destruct (requests_raise_for_status resp) as [[]|e]; [|done].
    destruct (mapM _ _ posted) as [r w'] eqn:E. cbn [snd].
    apply (preserves_mapM silent) in E; [by rewrite E|pres].
  - intros e Hp. by rewrite Hrun, Hp.
  - intros resp Hp Hs. rewrite Hrun, Hp. unfold requests_raise_for_status.
    replace (400 <=? status_code resp) with true by (symmetry; lia).
    by replace (status_code resp <? 600) with true by (symmetry; lia).
  - intros resp Hp Hs. rewrite Hrun, Hp. unfold requests_raise_for_status.
    assert ((400 <=? status_code resp) && (status_code resp <? 600) = false)
      as ->.
    { apply andb_false_iff. lia. }
    split; [done|]. apply mapM_scrape_entry_returns.
  - intros out H. clear Hrun. subst run.
    destruct (scrape_tier (with_requests X) self q n w) as [r w'] eqn:E.
    cbn [fst] in H. subst r. split.
    + by eapply scrape_tier_length.
    + unfold scrape_tier in E.
      destruct (requests_scrape_returns _ q n _ _ _ _ _ _ E) as (markup & HF).
      by destruct (scrape_entries_ids _ _ _ HF) as [_ Hb].
  - intros w0 w1 w2 H1 H2 H3.
    unfold _search_text, bind at 1. rewrite H1.
    unfold bind at 1. rewrite H2.
    unfold bind at 1. cbn [log]. fold (log_done w2).
    unfold bind at 1. rewrite H3.
    unfold bind at 1. fold run. by destruct run as [[out|e] w4].
Qed.

(** Scenario C: the POST is answered 503 and the scrape raises HTTPError
    after that single call. *)
Lemma requests_scrape_fast_fail_witness :
  scrape_tier (with_requests world_all_down) plain_wrapper "rust ownership" 5
    empty_world
  = (Raise (mkExc HTTPError "status"),
     mkWorld ∅ [EvPost "https://html.duckduckgo.com/html" "q=rust ownership"] []).
Proof.
  refine (proj1 (proj2 (proj2
            (requests_scrape_fast_fail world_all_down plain_wrapper
               "rust ownership" 5 empty_world _)))
            (mkResponse 503 "busy") _ _).
  - lia.
  - reflexivity.
  - cbn [status_code]. lia.
Defined.

(** C9 does not hold of the code: [_new_driver] never consults its
    [headless] argument.  Whatever its value, the driver is created with
    the argument [--headless], and the two values of the option give the
    same computation. *)
Theorem new_driver_ignores_headless (X : Externals) proxy headers headless
    bypass w :
  _new_driver X proxy headers headless bypass =
  _new_driver X proxy headers (negb headless) bypass ∧
  "--headless" ∈ driver_options proxy headless ∧
  ∃ evs, trace (_new_driver X proxy headers headless bypass w).2 =
         trace w ++ EvDriverNew (driver_options proxy headless) :: evs.
Proof.
  split; [done|]. split; [apply list_elem_of_here|].
  unfold _new_driver, bind at 1, clear_proxy_env.
  set (st := if bypass then _ else _).
  unfold bind at 1, try_finally, call, bind at 1, emit, environ_update.
  cbn [environ trace logs].
  destruct (webdriver_Chrome X _) as [[]|e]; cbn [snd trace].
  - destruct (inject_headers X headers _) as [r w'] eqn:E.
    assert (preserves (grows (λ _, True)) (inject_headers X headers)) as Hg.
    { unfold inject_headers. pres; by apply grows_emit. }
    destruct (Hg _ _ _ E) as (evs & Ht & _). cbn [trace] in Ht.
    exists evs. cbn [snd]. by rewrite Ht, <- app_assoc.
  - by exists [].
Qed.

(** The wrapper asks for a visible browser ([headless=False]); the
    driver is started headless. *)
Lemma visible_browser_started_headless :
  trace (_new_driver world_twelve None None false true empty_world).2
  = [EvDriverNew ["--headless"; "--disable-gpu"; "--disable-dev-shm-usage";
                  "--no-sandbox"]].
Proof. vm_compute. reflexivity. Qed.

(** C10: in tier 0 a [max_results] of 0 is replaced by
    [INTERNAL_MAX_RETURN] = 10: the tier behaves as if ten results had
    been asked for, and on a page with twelve anchors it returns ten
    entries, not an empty list. *)
Theorem primp_zero_means_ten (X : Externals) self q w :
  primp_limit 0 = INTERNAL_MAX_RETURN ∧ INTERNAL_MAX_RETURN = 10 ∧
  primp_tier X self q 0 w = primp_tier X self q 10 w ∧
  (∀ markup,
     length (primp_out X markup 0) =
     Nat.min (length (soup_select X markup "a.result__a")) 10) ∧
  ∃ out w',
    primp_tier world_twelve plain_wrapper "rust ownership" 0 empty_world
      = (Ok (Returned out), w') ∧ length out = 10%nat.
Proof.
  split; [done|]. split; [done|]. split; [done|]. split.
  - intros markup. unfold primp_out. rewrite length_map, enumerate_length.
    change (primp_limit 0) with 10. unfold slice_to. cbn [Z.leb Z.compare].
    rewrite length_take. change (Z.to_nat 10) with 10%nat. lia.
  - do 2 eexists. split; [vm_compute; reflexivity|]. vm_compute. reflexivity.
Qed.

(** * Further properties *)

(** ** The retry helper, for every budget and callback *)

Lemma text_fn_quiet (X : Externals) self q n :
  preserves (grows quiet) (text_fn X self q n).
Proof. unfold text_fn. pres. apply grows_emit. exact I. Qed.

Lemma media_fn_silent kind self q kw : preserves silent (media_fn kind self q kw).
Proof. by intros w r w' [= <- <-]. Qed.

Lemma media_fn_same_environ kind self q kw :
  preserves same_environ (media_fn kind self q kw).
Proof. by intros w r w' [= <- <-]. Qed.

Lemma export_proxy_environ proxy w :
  environ w ⊆ environ (export_proxy proxy w).2 ∧
  (truthy_str proxy = true →
   is_Some (environ (export_proxy proxy w).2 !! "HTTP_PROXY") ∧
   is_Some (environ (export_proxy proxy w).2 !! "HTTPS_PROXY")) ∧
  (truthy_str proxy = false → environ (export_proxy proxy w).2 = environ w).
Proof.
  unfold export_proxy. destruct (truthy_str proxy) eqn:Ht.
  2:{ split; [done|]. by split. }
  unfold bind, environ_setdefault.
  destruct (environ w !! "HTTP_PROXY") as [h|] eqn:E1; cbn [environ].
  - destruct (environ w !! "HTTPS_PROXY") as [s|] eqn:E2; cbn [snd environ].
    + split; [done|]. split; [|done]. intros _. by rewrite E1, E2.
    + split; [by apply insert_subseteq|]. split; [|done]. intros _.
      rewrite lookup_insert_ne by done. rewrite E1, lookup_insert_eq. by split.
  - destruct (<["HTTP_PROXY":=_]> (environ w) !! "HTTPS_PROXY") as [s|] eqn:E2;
      cbn [snd environ].
    + split; [by apply insert_subseteq|]. split; [|done]. intros _.
      rewrite E2, lookup_insert_eq. by split.
    + split.
      { etrans; [apply (insert_subseteq _ "HTTP_PROXY"); exact E1|].
        by apply insert_subseteq. }
      split; [|done]. intros _.
      rewrite lookup_insert_eq, lookup_insert_ne by done.
      rewrite lookup_insert_eq. by split.
Qed.

(** X1: with a retry budget of zero or less the loop body never runs:
    [_with_ddgs] returns [None] without opening a session or calling
    the callback; it has only exported the proxy. *)
Theorem with_ddgs_zero_budget (X : Externals) {A} proxy headers (fn : M A)
    retries backoff w :
  retries ≤ 0 →
  _with_ddgs X proxy headers fn retries backoff w =
    (Ok None, (export_proxy (effective_proxy proxy w) w).2) ∧
  trace (_with_ddgs X proxy headers fn retries backoff w).2 = trace w.
Proof.
  intros Hr. rewrite with_ddgs_enters_loop.
  replace (Z.to_nat retries) with 0%nat by lia. cbn [ddgs_attempts].
  split; [done|].
  destruct (export_proxy_runs (effective_proxy proxy w) w) as (w0 & Hex & Hw0).
  rewrite Hex. unfold ret. cbn [snd]. exact Hw0.
Qed.

Lemma with_ddgs_zero_budget_witness :
  _with_ddgs world_ddgs_answers None None
    (text_fn world_ddgs_answers plain_wrapper "rust ownership" 5)
    0 default_backoff empty_world = (Ok None, empty_world).
Proof.
  etrans.
  - apply (with_ddgs_zero_budget world_ddgs_answers None None
             (text_fn world_ddgs_answers plain_wrapper "rust ownership" 5)
             0 default_backoff empty_world). lia.
  - vm_compute. reflexivity.
Defined.



(** X3: only a DDGSException is retried.  When the first session
    returns, or raises an exception of any other class, that outcome is
    the outcome of [_with_ddgs]: no second session, no sleep. *)
Theorem with_ddgs_first_session_decides (X : Externals) {A} proxy headers
    (fn : M A) retries backoff w r1 w1 :
  1 ≤ retries →
  ddgs_session X (effective_proxy proxy w) fn
    (export_proxy (effective_proxy proxy w) w).2 = (r1, w1) →
  (∀ e, r1 = Raise e → isinstance e DDGSException = false) →
  _with_ddgs X proxy headers fn retries backoff w =
    (match r1 with Ok a => Ok (Some a) | Raise e => Raise e end, w1).
Proof.
  intros Hr Hs Hi. rewrite with_ddgs_enters_loop.
  destruct (Z.to_nat retries) as [|todo] eqn:Htodo; [lia|].
  cbn [ddgs_attempts]. unfold bind at 1, try_except, bind at 1. rewrite Hs.
  destruct r1 as [a|e]; [done|]. by rewrite (Hi e eq_refl).
Qed.

Lemma with_ddgs_first_session_decides_witness :
  _with_ddgs world_flaky_driver None None
    (media_fn (fun _ _ _ _ _ _ => Raise (mkExc KeyError "image"))
       plain_wrapper "rust ownership" None)
    default_retries default_backoff empty_world
  = (Raise (mkExc KeyError "image"), mkWorld ∅ [EvDdgsOpen None] []).
Proof.
  eapply (with_ddgs_first_session_decides world_flaky_driver None None _
            default_retries default_backoff empty_world
            (Raise (mkExc KeyError "image"))).
  - unfold default_retries. lia.
  - vm_compute. reflexivity.
  - intros e [= <-]. vm_compute. reflexivity.
Defined.

(** ** Runs that start with a given call *)

Lemma grows_any_emit e : preserves (grows any_event) (emit e).
Proof. by apply grows_emit. Qed.

#[local] Hint Resolve grows_any_emit : pres.

Lemma starts_with_call {A} e (oracle : World → Res A) :
  preserves (starts_with e) (call e oracle).
Proof.
  intros w r w'. unfold call, bind, emit. intros [= <- <-]. by exists [].
Qed.

Lemma starts_with_grows e w1 w2 w3 :
  starts_with e w1 w2 → grows any_event w2 w3 → starts_with e w1 w3.
Proof.
  intros (evs & H1) (evs' & H2 & _). exists (evs ++ evs').
  rewrite H2, H1, <- app_assoc. done.
Qed.

Lemma starts_with_bind {A B} e (m : M A) (k : A → M B) :
  preserves (starts_with e) m → (∀ a, preserves (grows any_event) (k a)) →
  preserves (starts_with e) (bind m k).
Proof.
  intros Hm Hk w r w'. unfold bind.
  destruct (m w) as [[a|e'] w1] eqn:E; intros H.
  - eapply starts_with_grows; [eapply Hm, E | eapply Hk, H].
  - injection H as <- <-. eapply Hm, E.
Qed.

Lemma starts_with_try_except {A} e (m : M A) k h :
  preserves (starts_with e) m → (∀ e', preserves (grows any_event) (h e')) →
  preserves (starts_with e) (try_except m k h).
Proof.
  intros Hm Hh w r w'. unfold try_except.
  destruct (m w) as [[a|e'] w1] eqn:E; intros H.
  - injection H as <- <-. eapply Hm, E.
  - destruct (isinstance e' k).
    + eapply starts_with_grows; [eapply Hm, E | eapply Hh, H].
    + injection H as <- <-. eapply Hm, E.
Qed.

Lemma starts_with_try_finally {A} e (m : M A) f :
  preserves (starts_with e) m → preserves (grows any_event) f →
  preserves (starts_with e) (try_finally m f).
Proof.
  intros Hm Hf w r w'. unfold try_finally.
  destruct (m w) as [r1 w1] eqn:E.
  destruct (f w1) as [[[]|e'] w2] eqn:F; intros [= <- <-];
    (eapply starts_with_grows; [eapply Hm, E | eapply Hf, F]).
Qed.

Lemma ddgs_attempts_starts (X : Externals) {A} proxy (fn : M A)
    retries backoff todo attempt sleep :
  preserves (grows any_event) fn →
  preserves (starts_with (EvDdgsOpen proxy))
    (ddgs_attempts X proxy fn retries backoff (S todo) attempt sleep).
Proof.
  intros Hfn.
  change (ddgs_attempts X proxy fn retries backoff (S todo) attempt sleep)
    with (r <- try_except
                 (a <- ddgs_session X proxy fn ;; ret (Returned a))
                 DDGSException
                 (fun exc =>
                    log Warning "ddgs raised (try)" ;;;
                    if attempt =? retries then raise exc
                    else emit (EvSleep sleep) ;;; ret Fallthrough) ;;
          match r with
          | Returned a => ret (Some a)
          | Fallthrough =>
              ddgs_attempts X proxy fn retries backoff todo (attempt + 1)
                (PrimFloat.mul sleep backoff)
          end).
  apply starts_with_bind.
  - apply starts_with_try_except; [|pres].
    apply starts_with_bind; [|pres]. unfold ddgs_session.
    apply starts_with_bind; [apply starts_with_call|]. by intros _.
  - intros [r|]; [pres|].
    apply ddgs_attempts_preserves; [apply _|done|pres..].
Qed.

Lemma text_fn_grows_any (X : Externals) self q n :
  preserves (grows any_event) (text_fn X self q n).
Proof. unfold text_fn. pres. Qed.

(** X4: the proxy handed to the ddgs client is the explicit one when it
    is a non-empty string, otherwise the value of [HTTP_PROXY] when that
    is non-empty, otherwise the value of [HTTPS_PROXY]; the first call
    of [_with_ddgs] opens the session with it. *)
Theorem with_ddgs_proxy_precedence (X : Externals) self q n proxy headers w :
  (∃ evs,
     trace (_with_ddgs X proxy headers (text_fn X self q n)
              default_retries default_backoff w).2
     = trace w ++ EvDdgsOpen (effective_proxy proxy w) :: evs) ∧
  (truthy_str proxy = true → effective_proxy proxy w = proxy) ∧
  (truthy_str proxy = false →
   truthy_str (environ w !! "HTTP_PROXY") = true →
   effective_proxy proxy w = environ w !! "HTTP_PROXY") ∧
  (truthy_str proxy = false →
   truthy_str (environ w !! "HTTP_PROXY") = false →
   effective_proxy proxy w = environ w !! "HTTPS_PROXY").
Proof.
  split.
  - rewrite with_ddgs_enters_loop.
    destruct (export_proxy_runs (effective_proxy proxy w) w) as (w0 & Hex & Hw0).
    rewrite Hex. cbn [snd]. change (Z.to_nat default_retries) with 3%nat.
    destruct (ddgs_attempts _ _ _ _ _ _ _ _ w0) as [r w'] eqn:E.
    apply ddgs_attempts_starts in E as (evs & Ht); [|apply text_fn_grows_any].
    exists evs. cbn [snd]. by rewrite Ht, Hw0.
  - unfold effective_proxy, py_or. split; [intros Hp; by rewrite !Hp|].
    split; intros Hp Hh; by rewrite Hp, !Hh.
Qed.

(** The wrapper has no proxy, [HTTP_PROXY] is set: the session is opened
    with the value of [HTTP_PROXY]. *)
Lemma with_ddgs_proxy_precedence_witness :
  effective_proxy None proxied_world = Some "http://corp:3128".
Proof.
  etrans.
  - refine (proj1 (proj2 (proj2
              (with_ddgs_proxy_precedence world_ddgs_answers plain_wrapper
                 "rust ownership" 5 None None proxied_world))) _ _);
      vm_compute; reflexivity.
  - vm_compute. reflexivity.
Defined.

(** X5: when a proxy is in force, both [HTTP_PROXY] and [HTTPS_PROXY]
    are set after [_with_ddgs], and every variable that was set keeps
    its value; when none is in force, the environment is unchanged. *)
Theorem with_ddgs_exports_proxy (X : Externals) {A} proxy headers (fn : M A)
    retries backoff w :
  preserves same_environ fn →
  let env' := environ (_with_ddgs X proxy headers fn retries backoff w).2 in
  environ w ⊆ env' ∧
  (truthy_str (effective_proxy proxy w) = true →
   is_Some (env' !! "HTTP_PROXY") ∧ is_Some (env' !! "HTTPS_PROXY")) ∧
  (truthy_str (effective_proxy proxy w) = false → env' = environ w).
Proof.
  intros Hfn env'. subst env'. rewrite with_ddgs_enters_loop.
  destruct (ddgs_attempts _ _ _ _ _ _ _ _ _) as [r w'] eqn:E.
  apply (ddgs_attempts_preserves X same_environ) in E; [|done|pres..].
  cbn [snd]. rewrite E. apply export_proxy_environ.
Qed.

(** A proxy is passed and the environment is empty: both variables hold
    it afterwards. *)
Lemma with_ddgs_exports_proxy_witness :
  is_Some (environ (_with_ddgs world_ddgs_answers (Some "http://corp:3128") None
                      (text_fn world_ddgs_answers plain_wrapper "rust ownership" 5)
                      default_retries default_backoff empty_world).2
             !! "HTTP_PROXY") ∧
  is_Some (environ (_with_ddgs world_ddgs_answers (Some "http://corp:3128") None
                      (text_fn world_ddgs_answers plain_wrapper "rust ownership" 5)
                      default_retries default_backoff empty_world).2
             !! "HTTPS_PROXY").
Proof.
  apply (with_ddgs_exports_proxy world_ddgs_answers (Some "http://corp:3128")
           None (text_fn world_ddgs_answers plain_wrapper "rust ownership" 5)
           default_retries default_backoff empty_world).
  - apply text_fn_same_environ.
  - vm_compute. reflexivity.
Defined.

(** ** The non-text searches *)

Lemma media_search_spec (X : Externals) kind self q kw w :
  let run := _with_ddgs X (self_proxy self) (self_headers self)
               (media_fn kind self q kw) default_retries default_backoff w in
  let evs := drop (length (trace w)) (trace run.2) in
  trace run.2 = trace w ++ evs ∧
  Forall session_or_sleep evs ∧
  (1 ≤ attempts evs ≤ 3)%nat ∧
  run.1 ≠ Ok None ∧
  (∀ e, run.1 = Raise e → isinstance e DDGSException = true →
        attempts evs = 3%nat) ∧
  (∀ out, run.1 = Ok (Some out) →
     ∃ w0, kind w0 q (default (self_k self) kw) (self_region self)
             (self_safesearch self) (self_time self) = Ok out).
Proof.
  intros run evs.
  pose proof (with_ddgs_enters_loop X (self_proxy self) (self_headers self)
                (media_fn kind self q kw) default_retries default_backoff w)
    as Hrun.
  destruct (export_proxy_runs (effective_proxy (self_proxy self) w) w)
    as (w0 & Hex & Hw0).
  rewrite Hex in Hrun. cbn [snd] in Hrun. fold run in Hrun.
  change (Z.to_nat default_retries) with 3%nat in Hrun.
  destruct run as [r w'] eqn:E. symmetry in Hrun.
  assert (preserves (grows quiet) (media_fn kind self q kw)) as Hq.
  { apply grows_silent, media_fn_silent. }
  destruct (ddgs_attempts_spec X _ _ Hq default_retries default_backoff
              2 1 _ w0 r w' eq_refl Hrun)
    as (evs0 & Ht & Ha & Hs & Hn & Hr & Hl).
  assert (grows session_or_sleep w0 w') as (evs1 & Ht1 & HF).
  { eapply (ddgs_attempts_preserves X (grows session_or_sleep)); [| | | |exact Hrun].
    - apply grows_silent, media_fn_silent.
    - intros p. by apply grows_emit.
    - intros d. by apply grows_emit.
    - intros l s. apply grows_log. }
  assert (evs1 = evs0) as -> by (rewrite Ht in Ht1; by apply app_inv_head in Ht1).
  rewrite Hw0 in Ht.
  assert (evs = evs0) as ->.
  { subst evs. cbn [snd]. rewrite Ht. apply drop_app_length. }
  cbn [fst snd]. repeat split; try done; try lia.
  intros out ->.
  eapply (ddgs_attempts_returns X
            (λ out, ∃ w0, kind w0 q (default (self_k self) kw) (self_region self)
                            (self_safesearch self) (self_time self) = Ok out));
    [|exact Hrun|reflexivity].
  intros wa a wb. unfold media_fn. intros [= H1 _]. by exists wa.
Qed.

(** X6: the image, video and news searches have no fallback.  Each makes
    between one and three ddgs sessions and, apart from sleeping between
    them, no other call: no impersonated GET, no browser, no POST.  A
    returned list is the list the client method gave for
    [max_results = kw.get("max_results", self.k)]; a DDGSException is
    raised to the caller, after the third session. *)
Theorem media_searches_have_no_fallback (X : Externals) (C : MediaClient)
    self q kw w m kind :
  (m, kind) ∈ [(_ddgs_images X C self q kw, ddgs_images C);
               (_ddgs_videos X C self q kw, ddgs_videos C);
               (_ddgs_news X C self q kw, ddgs_news C)] →
  let run := m w in
  let evs := drop (length (trace w)) (trace run.2) in
  trace run.2 = trace w ++ evs ∧
  Forall session_or_sleep evs ∧
  (1 ≤ attempts evs ≤ 3)%nat ∧
  run.1 ≠ Ok None ∧
  (∀ e, run.1 = Raise e → isinstance e DDGSException = true →
        attempts evs = 3%nat) ∧
  (∀ out, run.1 = Ok (Some out) →
     ∃ w0, kind w0 q (default (self_k self) kw) (self_region self)
             (self_safesearch self) (self_time self) = Ok out).
Proof.
  intros Hin.
  repeat (apply elem_of_cons in Hin as [[= -> ->]|Hin];
          [apply media_search_spec|]).
  by apply elem_of_nil in Hin.
Qed.

(** The image search of a rate-limited client raises after three
    sessions. *)
Lemma media_searches_have_no_fallback_witness :
  attempts
    (drop (length (trace empty_world))
       (trace (_ddgs_images world_all_down media_down plain_wrapper
                 "rust ownership" None empty_world).2)) = 3%nat.
Proof.
  eapply (media_searches_have_no_fallback world_all_down media_down
            plain_wrapper "rust ownership" None empty_world
            (_ddgs_images world_all_down media_down plain_wrapper
               "rust ownership" None)
            (ddgs_images media_down)).
  - apply list_elem_of_here.
  - vm_compute. reflexivity.
  - vm_compute. reflexivity.
Defined.

(** ** The dispatcher as a whole *)

#[local] Instance keeps_all_preorder : PreOrder keeps_all.
Proof.
  split.
  - intros w. unfold keeps_all. reflexivity.
  - intros a b c H1 H2. unfold keeps_all in *. by etrans.
Qed.

Lemma keeps_all_same_environ {A} (m : M A) :
  preserves same_environ m → preserves keeps_all m.
Proof. intros H w r w' E. unfold keeps_all. by rewrite (H w r w' E). Qed.

Lemma primp_tier_same_environ (X : Externals) self q n :
  preserves same_environ (primp_tier X self q n).
Proof. unfold primp_tier, primp_block. pres. Qed.

Lemma browser_tier_same_environ (X : Externals) self q n :
  preserves same_environ (browser_tier X self q n).
Proof.
  unfold browser_tier. destruct (self_use_browser self); [|pres].
  apply preserves_try_except; [apply _| |pres].
  apply preserves_bind; [apply _|apply browser_search_same_environ|pres].
Qed.

Lemma scrape_tier_same_environ (X : Externals) self q n :
  preserves same_environ (scrape_tier X self q n).
Proof. unfold scrape_tier, _requests_scrape. pres. Qed.

Lemma with_ddgs_keeps_all (X : Externals) {A} proxy headers (fn : M A)
    retries backoff :
  preserves same_environ fn →
  preserves keeps_all (_with_ddgs X proxy headers fn retries backoff).
Proof.
  intros Hfn w r w' E. rewrite with_ddgs_enters_loop in E.
  apply (ddgs_attempts_preserves X same_environ) in E; [|done|pres..].
  unfold keeps_all. rewrite E. apply export_proxy_environ.
Qed.

Lemma ddgs_tier_keeps_all (X : Externals) self q n :
  preserves keeps_all (ddgs_tier X self q n).
Proof.
  unfold ddgs_tier. apply preserves_try_except; [apply _| |].
  - apply preserves_bind; [apply _| |intros; apply preserves_ret; apply _].
    apply with_ddgs_keeps_all, text_fn_same_environ.
  - intros e. apply keeps_all_same_environ. pres.
Qed.

(** X7: a text search never removes or changes an environment variable:
    whatever tiers run and however the call ends, every variable that was
    set beforehand is set to the same value afterwards.  Tier 0 and the
    scrape leave the environment exactly as it was. *)
Theorem search_text_keeps_environment (X : Externals) self q n w :
  environ w ⊆ environ (_search_text X self q n w).2 ∧
  (∀ var v, environ w !! var = Some v →
            environ (_search_text X self q n w).2 !! var = Some v) ∧
  environ (primp_tier X self q n w).2 = environ w ∧
  environ (scrape_tier X self q n w).2 = environ w.
Proof.
  assert (environ w ⊆ environ (_search_text X self q n w).2) as Hsub.
  { destruct (_search_text X self q n w) as [r w'] eqn:E. cbn [snd].
    revert E. generalize w r w'.
    change (preserves keeps_all (_search_text X self q n)).
    unfold _search_text.
    apply preserves_bind; [apply _| |].
    { apply keeps_all_same_environ, primp_tier_same_environ. }
    intros [out|]; [apply preserves_ret; apply _|].
    apply preserves_bind; [apply _| |].
    { apply keeps_all_same_environ, browser_tier_same_environ. }
    intros [out|]; [apply preserves_ret; apply _|].
    apply preserves_bind; [apply _| |].
    { apply keeps_all_same_environ. pres. }
    intros _. apply preserves_bind; [apply _|apply ddgs_tier_keeps_all|].
    intros [out|]; [apply preserves_ret; apply _|].
    apply preserves_bind; [apply _| |intros; apply preserves_ret; apply _].
    apply keeps_all_same_environ, scrape_tier_same_environ. }
  split; [done|]. split.
  - intros var v Hv. by eapply lookup_weaken.
  - split.
    + destruct (primp_tier X self q n w) as [r w'] eqn:E.
      by apply primp_tier_same_environ in E.
    + destruct (scrape_tier X self q n w) as [r w'] eqn:E.
      by apply scrape_tier_same_environ in E.
Qed.

(** Every tier fails, the browser included, in a process with both
    proxy variables set: [HTTPS_PROXY] still has its value. *)
Lemma search_text_keeps_environment_witness :
  environ (_search_text world_no_driver (browser_wrapper true)
             "rust ownership" 5 proxied_world).2 !! "HTTPS_PROXY"
  = Some "http://corp:3129".
Proof.
  apply (search_text_keeps_environment world_no_driver (browser_wrapper true)
           "rust ownership" 5 proxied_world).
  vm_compute. reflexivity.
Defined.

Lemma ddgs_tier_not_None (X : Externals) self q n w w' :
  ddgs_tier X self q n w ≠ (Ok (Returned None), w').
Proof.
  unfold ddgs_tier, try_except, bind at 1. rewrite with_ddgs_enters_loop.
  destruct (export_proxy_runs (effective_proxy (self_proxy self) w) w)
    as (w0 & Hex & Hw0).
  rewrite Hex. cbn [snd]. change (Z.to_nat default_retries) with 3%nat.
  destruct (ddgs_attempts _ _ _ _ _ _ _ _ w0) as [r w1] eqn:E.
  destruct (ddgs_attempts_spec X _ _ (text_fn_quiet X self q n)
              default_retries default_backoff 2 1 _ w0 r w1 eq_refl E)
    as (evs0 & _ & _ & _ & Hn & _).
  destruct r as [[out|]|e]; [done|done|].
  destruct (isinstance e DDGSException); [|done].
  unfold bind, log, ret. done.
Qed.

(** X8: [_ddgs_text] is the dispatcher run with
    [kw.get("max_results", self.k)], and it never returns [None]: a text
    search ends with a list or with an exception. *)
Theorem ddgs_text_returns_a_list (X : Externals) self q kw w :
  _ddgs_text X self q None w = _search_text X self q (self_k self) w ∧
  (∀ n, _ddgs_text X self q (Some n) w = _search_text X self q n w) ∧
  (_ddgs_text X self q kw w).1 ≠ Ok None.
Proof.
  split; [done|]. split; [done|].
  unfold _ddgs_text. set (n := default (self_k self) kw). clearbody n.
  unfold _search_text. unfold bind at 1.
  destruct (primp_tier X self q n w) as [[[out|]|e] w1]; [done| |done].
  unfold bind at 1.
  destruct (browser_tier X self q n w1) as [[[out|]|e] w2]; [done| |done].
  unfold bind at 1. cbn [log]. unfold bind at 1.
  destruct (ddgs_tier X self q n _) as [[[[out|]|]|e] w3] eqn:E; [done| | |done].
  - by apply ddgs_tier_not_None in E.
  - unfold bind at 1. by destruct (scrape_tier X self q n w3) as [[out|e] w4].
Qed.

(** X9: tier 0 never fails with an Exception: whatever the client, the
    parser or the network do, it returns or falls through, and only an
    exception outside Exception can leave it.  A list it returns is
    never empty: a page without anchors makes it fall through. *)
Theorem primp_tier_never_fails (X : Externals) self q n :
  no_Exception (primp_tier X self q n) ∧
  (∀ w out w', primp_tier X self q n w = (Ok (Returned out), w') → out ≠ []).
Proof.
  split.
  - unfold primp_tier. apply try_except_Exception_no_Exception.
    intros e w. by eexists _, _.
  - intros w out w' H.
    by destruct (primp_tier_returns X self q n _ _ _ H out eq_refl).
Qed.

(** A page of twelve anchors, two asked for: the list of tier 0 is not
    empty. *)
Lemma primp_tier_never_fails_witness :
  primp_out world_twelve "<html>" 2 ≠ [].
Proof.
  refine (proj2 (primp_tier_never_fails world_twelve plain_wrapper
                   "rust ownership" 2) empty_world
            (primp_out world_twelve "<html>" 2)
            (primp_tier world_twelve plain_wrapper "rust ownership" 2
               empty_world).2 _).
  vm_compute. reflexivity.
Defined.

(** ** Releasing the client and the driver *)




(** X11: when the driver constructor raises, [_new_driver] raises the
    same exception after that single call, with the environment as it
    was before the call; [_browser_search] then raises it too, without
    navigating, sleeping or quitting.  The constructor runs while the
    proxy variables are cleared (when [bypass_proxy_for_driver] is set)
    and with every other variable in place. *)
Theorem driver_constructor_failure (X : Externals) q n proxy headers headless
    bypass timeout w e :
  let opts := driver_options proxy headless in
  let window lg := mkWorld (environ (clear_proxy_env bypass w).2)
                     (trace w ++ [EvDriverNew opts]) lg in
  let printed := logs w ++ [(Stdout, "In _browser_search")] in
  (webdriver_Chrome X (window (logs w)) = Raise e →
   _new_driver X proxy headers headless bypass w =
     (Raise e, mkWorld (environ w) (trace w ++ [EvDriverNew opts]) (logs w))) ∧
  (webdriver_Chrome X (window printed) = Raise e →
   _browser_search X q n proxy headers headless bypass timeout w =
     (Raise e, mkWorld (environ w) (trace w ++ [EvDriverNew opts]) printed)) ∧
  (∀ var lg, var ≠ "HTTP_PROXY" → var ≠ "HTTPS_PROXY" →
             environ (window lg) !! var = environ w !! var).
Proof.
  intros opts window printed. split; [|split].
  - intros He. rewrite new_driver_unfold. fold opts.
    change (mkWorld (environ (clear_proxy_env bypass w).2)
              (trace w ++ [EvDriverNew opts]) (logs w)) with (window (logs w)).
    by rewrite He.
  - intros He. unfold _browser_search, bind at 1, log. unfold bind at 1.
    rewrite new_driver_unfold. cbn [environ trace logs]. fold opts.
    unfold window, printed, clear_proxy_env in *.
    cbn [snd environ trace logs] in *. by rewrite He.
  - intros var lg H1 H2. unfold window, clear_proxy_env. cbn [snd environ].
    destruct bypass; [|done]. cbn [foldl].
    unfold pop_var at 2. destruct (environ w !! "HTTP_PROXY"); unfold pop_var.
    + rewrite lookup_delete_ne by done.
      destruct (environ w !! "HTTPS_PROXY"); cbn [snd];
        by rewrite ?lookup_delete_ne by done.
    + destruct (environ w !! "HTTPS_PROXY"); cbn [snd];
        by rewrite ?lookup_delete_ne by done.
Qed.

(** The driver cannot be started in a process with both proxy variables
    set. *)
Lemma driver_constructor_failure_witness :
  _browser_search world_no_driver "rust ownership" 5 None None true true 15
    proxied_world =
    (Raise (mkExc WebDriverException "session not created"),
     mkWorld (environ proxied_world)
       [EvDriverNew (driver_options None true)]
       [(Stdout, "In _browser_search")]).
Proof.
  apply (driver_constructor_failure world_no_driver "rust ownership" 5
           None None true true 15 proxied_world
           (mkExc WebDriverException "session not created")); reflexivity.
Defined.

(** X12: header injection is best effort.  Once the driver exists, no
    Exception leaves [_new_driver]: without headers no CDP command is
    sent, and when the first CDP command fails with an Exception the
    second one is skipped, the failure is logged at debug level and the
    driver is returned. *)
Theorem header_injection_is_best_effort (X : Externals) proxy headers headless
    bypass w :
  let started := mkWorld (environ w)
                   (trace w ++ [EvDriverNew (driver_options proxy headless)])
                   (logs w) in
  let enabled := mkWorld (environ w)
                   (trace started ++ [EvCdp "Network.enable"]) (logs w) in
  webdriver_Chrome X
    (mkWorld (environ (clear_proxy_env bypass w).2) (trace started) (logs w))
    = Ok tt →
  (∀ e, (_new_driver X proxy headers headless bypass w).1 = Raise e →
        isinstance e PyException = false) ∧
  (truthy_dict headers = false →
   _new_driver X proxy headers headless bypass w = (Ok tt, started)) ∧
  (∀ e, truthy_dict headers = true →
        execute_cdp_cmd X enabled = Raise e →
        isinstance e PyException = true →
        _new_driver X proxy headers headless bypass w =
          (Ok tt, mkWorld (environ w) (trace enabled)
                    (logs w ++ [(Debug, "CDP header injection failed")]))).
Proof.
  intros started enabled Hc. rewrite new_driver_unfold.
  subst started enabled. cbn [trace environ logs] in *.
  rewrite Hc. split; [|split].
  - intros e He. destruct (inject_headers X headers _) as [r w'] eqn:E.
    cbn [fst] in He. subst r. revert E. unfold inject_headers.
    destruct (truthy_dict headers); [|done].
    apply try_except_Exception_no_Exception. intros e0 w0. by eexists _, _.
  - intros Hh. unfold inject_headers. by rewrite Hh.
  - intros e Hh He Hi. unfold inject_headers. rewrite Hh.
    unfold try_except. rewrite call_bind. cbn [trace environ logs].
    by rewrite He, Hi.
Qed.

(** The browser refuses CDP commands: the driver is returned all the
    same. *)
Lemma header_injection_is_best_effort_witness :
  _new_driver world_flaky_driver None (Some {[ "Accept-Language" := "en" ]})
    true true empty_world =
  (Ok tt, mkWorld ∅ [EvDriverNew (driver_options None true);
                     EvCdp "Network.enable"]
            [(Debug, "CDP header injection failed")]).
Proof.
  eapply (header_injection_is_best_effort world_flaky_driver None
            (Some {[ "Accept-Language" := "en" ]}) true true empty_world).
  - reflexivity.
  - vm_compute. reflexivity.
  - vm_compute. reflexivity.
  - vm_compute. reflexivity.
Defined.

(** X13: once the driver exists it is always quit.  Whatever navigation,
    the wait and the extraction do (return a list, time out, hit an
    anchor without [href]), the last two calls of [_browser_search] are
    the short sleep and [driver.quit()].  An Exception raised by [quit]
    is swallowed: the outcome of the search is the outcome of the body,
    list or exception. *)
Theorem browser_search_always_quits (X : Externals) q n proxy headers headless
    bypass timeout w w2 :
  _new_driver X proxy headers headless bypass
    (mkWorld (environ w) (trace w) (logs w ++ [(Stdout, "In _browser_search")]))
    = (Ok tt, w2) →
  let body := browser_render X q timeout w2 in
  let wq := mkWorld (environ body.2)
              (trace body.2 ++ [EvSleep (random_uniform X body.2); EvDriverQuit])
              (logs body.2) in
  let run := _browser_search X q n proxy headers headless bypass timeout w in
  run.2 = wq ∧
  (∃ evs, trace run.2 = trace w2 ++ evs ++ [EvSleep (random_uniform X body.2);
                                           EvDriverQuit]) ∧
  ((∀ e, driver_quit X wq = Raise e → isinstance e PyException = true) →
   run.1 = body.1).
Proof.
  intros Hd body wq run.
  assert (run = match driver_quit X wq with
                | Ok _ => (body.1, wq)
                | Raise e =>
                    if isinstance e PyException then (body.1, wq)
                    else (Raise e, wq)
                end) as Hrun.
  { subst run. rewrite browser_search_unfold.
    unfold bind at 1, log. unfold bind at 1. rewrite Hd.
    unfold try_finally. fold body. destruct body as [r w3].
    cbn [fst snd] in *. rewrite browser_cleanup_run. fold wq.
    destruct (driver_quit X wq) as [[]|e]; [done|].
    by destruct (isinstance e PyException). }
  assert (∃ evs, trace body.2 = trace w2 ++ evs) as [evs Hevs].
  { assert (preserves (grows any_event) (browser_render X q timeout)) as Hg.
    { unfold browser_render. pres. }
    destruct body as [r w3] eqn:Eb.
    destruct (Hg _ _ _ Eb) as (evs & Ht & _). by exists evs. }
  assert (run.2 = wq) as Hend.
  { rewrite Hrun. destruct (driver_quit X wq) as [[]|e]; [done|].
    by destruct (isinstance e PyException). }
  split; [exact Hend|]. split.
  - exists evs. rewrite Hend. unfold wq. cbn [trace].
    by rewrite Hevs, <- app_assoc.
  - intros Hq. rewrite Hrun.
    destruct (driver_quit X wq) as [[]|e] eqn:Eq; [done|].
    by rewrite (Hq e eq_refl).
Qed.

(** [quit] fails on a browser that rendered two anchors: the two entries
    are returned. *)
Lemma browser_search_always_quits_witness :
  length (match (_browser_search world_flaky_driver "rust ownership" 5
                   None None true true 15 empty_world).1 with
          | Ok out => out
          | Raise _ => []
          end) = 2%nat.
Proof.
  rewrite (proj2 (proj2 (browser_search_always_quits world_flaky_driver
                           "rust ownership" 5 None None true true 15
                           empty_world _ eq_refl))).
  - vm_compute. reflexivity.
  - intros e. vm_compute. intros [= <-]. reflexivity.
Defined.

(** ** The engine client behind the name [ddgs] *)

(** X14: as the module imports it, [ddgs] is not callable.  Every image,
    video and news search raises the TypeError of line 71 after that one
    call, without running its query, without a retry and without a
    sleep.  A text search that gets past tier 0 and the browser tier
    raises it too: the TypeError is no DDGSException, so the plain-HTTP
    scrape is never reached. *)
Theorem engine_client_is_the_module (X : Externals) (C : MediaClient)
    self q kw n w :
  let opened w0 :=
    at_call (EvDdgsOpen (effective_proxy (self_proxy self) w0))
      (export_proxy (effective_proxy (self_proxy self) w0) w0).2 in
  _ddgs_images (as_imported X) C self q kw w
    = (Raise module_not_callable, opened w) ∧
  _ddgs_videos (as_imported X) C self q kw w
    = (Raise module_not_callable, opened w) ∧
  _ddgs_news (as_imported X) C self q kw w
    = (Raise module_not_callable, opened w) ∧
  trace (opened w)
    = trace w ++ [EvDdgsOpen (effective_proxy (self_proxy self) w)] ∧
  isinstance module_not_callable DDGSException = false ∧
  _search_text (as_imported X) self q n w =
    match primp_tier (as_imported X) self q n w with
    | (Ok (Returned out), w1) => (Ok (Some out), w1)
    | (Raise e, w1) => (Raise e, w1)
    | (Ok Fallthrough, w1) =>
        match browser_tier (as_imported X) self q n w1 with
        | (Ok (Returned out), w2) => (Ok (Some out), w2)
        | (Raise e, w2) => (Raise e, w2)
        | (Ok Fallthrough, w2) =>
            (Raise module_not_callable, opened (log_done w2))
        end
    end.
Proof.
  intros opened. subst opened. cbv beta.
  split; [|split; [|split; [|split; [|split]]]].
  - unfold _ddgs_images. by apply with_ddgs_as_imported.
  - unfold _ddgs_videos. by apply with_ddgs_as_imported.
  - unfold _ddgs_news. by apply with_ddgs_as_imported.
  - unfold at_call. cbn [trace].
    destruct (export_proxy_runs (effective_proxy (self_proxy self) w) w)
      as (w0 & Hex & Hw0). rewrite Hex. cbn [snd]. by rewrite Hw0.
  - done.
  - unfold _search_text, bind at 1.
    destruct (primp_tier _ self q n w) as [[[out|]|e] w1]; [done| |done].
    unfold bind at 1.
    destruct (browser_tier _ self q n w1) as [[[out|]|e] w2]; [done| |done].
    unfold bind at 1. cbn [log]. fold (log_done w2).
    unfold bind at 1, ddgs_tier, try_except, bind at 1.
    by rewrite with_ddgs_as_imported.
Qed.

(** Scenario B with [ddgs] as imported: the page the scrape would have
    parsed is never asked for. *)
Lemma scrape_is_not_reached :
  _search_text (as_imported world_scrape_only) plain_wrapper
    "rust ownership" 5 empty_world
  = (Raise module_not_callable,
     mkWorld ∅
       [EvPrimpClient "chrome_131" "windows" None; EvPrimpGet [("q", "rust ownership")];
        EvPrimpClose; EvDdgsOpen None]
       [(Stdout, "Done with Selenium try")]).
Proof. vm_compute. reflexivity. Qed.
